(** * Pocket Progress: the state transitions of [App.jsx]

    A shallow embedding of the React component [App] and of the handlers
    it installs: the ledger ([addEntry], [saveEdit], [deleteEntry],
    [clearAllEntries]), the pending value of the knob (quick buttons,
    pointer drag, [commitKnob]), the settings drawer and the initialisers
    that read [localStorage].  The repository holds the component twice:
    in full in the file whose comment opens with [App.jsx], and cut down to
    its initialisers and [addEntry] in [src/App.jsx]; the second is the
    module [SrcApp] below and the definitions [DApp.Src_...].

    Conventions of the model.
    - Numbers.  The first part takes the numbers of the program to be
      integers or [NaN], with the arithmetic of [Z], and reads a text as a
      number when it is a signed decimal integer.  That is the program on
      integer amounts, targets and pixel positions below 2^53, where the
      double arithmetic of [+], [-] and [*] is exact.  The second part
      ([Double] and [DApp]) has the handlers over doubles: finite values
      rounded to the nearest double after every operation, the infinities
      and [NaN], and [Number] and [String] on texts with fractions,
      exponents and radix prefixes.  It carries the properties that depend
      on rounding or on which texts are numbers; [add_int], [sub_int],
      [mul_int], [Math_round_tenth] and
      [Double_StringToNumber_NumberToString_int] show where the two parts
      agree.
    - A handler runs on the state of the render that installed it and its
      [set...] calls are applied together, so a handler is a function
      [State -> State].  Where the source reads a variable of the closure
      rather than the argument of a functional update (as [saveEdit] does
      with [entries]), the model reads the state the handler started from.
    - [new Date().toISOString()] is an argument [now] of the handlers that
      call it; [alert] appends to the field [alerts].
    - [JSON.parse] is a parameter of the initialisers: a text either
      parses to an array of entries or throws. *)

From Stdlib Require Import Ascii ZArith Lia QArith Qround.
From stdpp Require Import gmap strings list pretty.

Local Open Scope string_scope.
Local Open Scope Z_scope.

(** ** Numbers *)

Inductive number : Type :=
| Fin (z : Z)
| NaN.

#[global] Instance number_eq_dec : EqDecision number.
Proof. solve_decision. Defined.

Definition num_add (a b : number) : number :=
  match a, b with
  | Fin x, Fin y => Fin (x + y)
  | _, _ => NaN
  end.

Definition num_sub (a b : number) : number :=
  match a, b with
  | Fin x, Fin y => Fin (x - y)
  | _, _ => NaN
  end.

Definition num_mul (a b : number) : number :=
  match a, b with
  | Fin x, Fin y => Fin (x * y)
  | _, _ => NaN
  end.

(** [a === b] on numbers: [NaN] is equal to nothing, itself included. *)
Definition strict_eq (a b : number) : bool :=
  match a, b with
  | Fin x, Fin y => x =? y
  | _, _ => false
  end.

Definition Number_isNaN (a : number) : bool :=
  match a with
  | NaN => true
  | Fin _ => false
  end.

(** [Math.max] and [Math.min] of two arguments: [NaN] when either is. *)
Definition Math_max (a b : number) : number :=
  match a, b with
  | Fin x, Fin y => Fin (Z.max x y)
  | _, _ => NaN
  end.

Definition Math_min (a b : number) : number :=
  match a, b with
  | Fin x, Fin y => Fin (Z.min x y)
  | _, _ => NaN
  end.

(** [Math.round(n / d)] for integers [n] and [d > 0]: the nearest integer,
    a tie going towards plus infinity ([Math.round(2.5)] is [3],
    [Math.round(-2.5)] is [-2]; a result of [-0] compares equal to [0]). *)
Definition Math_round_div (n d : Z) : Z := (2 * n + d) / (2 * d).

(** [const clamp = (v, a, b) => Math.max(a, Math.min(b, v))] *)
Definition clamp (v a b : number) : number := Math_max a (Math_min b v).

(** ** Strings *)

(** The white space and line terminators of the ASCII range: tab, line
    feed, vertical tab, form feed, carriage return and space. *)
Definition is_white (c : ascii) : bool :=
  let n := nat_of_ascii c in
  (((9 <=? n)%nat && (n <=? 13)%nat) || (n =? 32)%nat)%bool.

Fixpoint trimStart (s : string) : string :=
  match s with
  | EmptyString => EmptyString
  | String c s' => if is_white c then trimStart s' else s
  end.

Fixpoint trimEnd (s : string) : string :=
  match s with
  | EmptyString => EmptyString
  | String c s' =>
      match trimEnd s' with
      | EmptyString => if is_white c then EmptyString else String c EmptyString
      | t => String c t
      end
  end.

(** [s.trim()] *)
Definition trim (s : string) : string := trimEnd (trimStart s).

(** A string is truthy when it is not empty. *)
Definition string_truthy (s : string) : bool :=
  match s with
  | EmptyString => false
  | String _ _ => true
  end.

Definition digit_value (c : ascii) : option Z :=
  let n := nat_of_ascii c in
  if ((48 <=? n)%nat && (n <=? 57)%nat)%bool then Some (Z.of_nat n - 48) else None.

Fixpoint digits_value (acc : Z) (s : string) : option Z :=
  match s with
  | EmptyString => Some acc
  | String c s' =>
      match digit_value c with
      | Some d => digits_value (10 * acc + d) s'
      | None => None
      end
  end.

Definition unsigned_decimal (s : string) : number :=
  match s with
  | EmptyString => NaN
  | _ => match digits_value 0 s with Some z => Fin z | None => NaN end
  end.

(** [Number(s)] on a string, for the integer literals of the model: the
    text is trimmed; the empty text is [0]; an optional sign followed by
    decimal digits is that integer; a text that is no numeric literal
    (["abc"], ["12px"], ["-"]) is [NaN].  Literals with a fraction, an
    exponent, a radix prefix or [Infinity] denote numbers written in a
    form the model does not read; no statement below is about them. *)
Definition StringToNumber (s : string) : number :=
  match trim s with
  | EmptyString => Fin 0
  | String "+" r => unsigned_decimal r
  | String "-" r => num_sub (Fin 0) (unsigned_decimal r)
  | t => unsigned_decimal t
  end.

(** [String(n)] *)
Definition NumberToString (n : number) : string :=
  match n with
  | Fin z => pretty z
  | NaN => "NaN"
  end.

(** ** Values passed where the source accepts anything *)

Inductive value : Type :=
| Vundefined
| Vnull
| Vbool (b : bool)
| Vnumber (n : number)
| Vstring (s : string).

(** [Number(v)] *)
Definition ToNumber (v : value) : number :=
  match v with
  | Vundefined => NaN
  | Vnull => Fin 0
  | Vbool true => Fin 1
  | Vbool false => Fin 0
  | Vnumber n => n
  | Vstring s => StringToNumber s
  end.

Definition number_truthy (n : number) : bool :=
  match n with
  | Fin z => negb (z =? 0)
  | NaN => false
  end.

(** ** Entries and the array that holds them *)

(** [{ amount, partName, date }]; [partName] is a string or [null].  An
    entry written by [saveEdit] at an index that held none has no [date]. *)
Record Entry : Type := mkEntry {
  amount : number;
  partName : option string;
  date : option string
}.

(** An index of a JavaScript array holds an element, holds [undefined], or
    is a hole (below [length], never assigned). *)
Inductive slot : Type :=
| Hole
| Undef
| Elem (e : Entry).

(** [arr[i]]: the entry, or [undefined] ([None]) for a hole, for [undefined]
    and beyond the end. *)
Definition get (arr : list slot) (i : nat) : option Entry :=
  match arr !! i with
  | Some (Elem e) => Some e
  | _ => None
  end.

(** [...arr]: iteration reads a hole as [undefined]. *)
Definition spread (arr : list slot) : list slot :=
  map (fun x => match x with Hole => Undef | _ => x end) arr.

(** [copy[i] = x]: replaces within the array, extends it beyond the end
    (the indices between the old end and [i] become holes). *)
Definition array_set (i : nat) (x : slot) (arr : list slot) : list slot :=
  if (i <? length arr)%nat then <[i := x]> arr
  else arr ++ replicate (i - length arr) Hole ++ [x].

(** [arr.filter((_, i) => i !== idx)], the indices counted from [i]:
    [filter] does not visit holes, so they are dropped. *)
Fixpoint filter_index_from (i idx : nat) (arr : list slot) : list slot :=
  match arr with
  | [] => []
  | x :: rest =>
      let r := filter_index_from (S i) idx rest in
      match x with
      | Hole => r
      | _ => if (i =? idx)%nat then r else x :: r
      end
  end.

Definition filter_index_ne (idx : nat) (arr : list slot) : list slot :=
  filter_index_from 0 idx arr.

(** ** The state of the component *)

Record State : Type := mkState {
  targetSum : number;
  progress : number;
  entries : list slot;
  knobValue : number;
  pointerActive : bool;          (* pointerActive.current *)
  lastAngle : option Z;          (* lastAngle.current: null or a clientX *)
  showSettings : bool;
  editIdx : option nat;
  editAmount : string;
  editName : string;
  showClearAlert : bool;
  alerts : list string           (* the messages passed to alert, latest first *)
}.

Definition setTargetSum (f : number -> number) (s : State) : State :=
  mkState (f (targetSum s)) (progress s) (entries s) (knobValue s)
    (pointerActive s) (lastAngle s) (showSettings s) (editIdx s)
    (editAmount s) (editName s) (showClearAlert s) (alerts s).

Definition setProgress (f : number -> number) (s : State) : State :=
  mkState (targetSum s) (f (progress s)) (entries s) (knobValue s)
    (pointerActive s) (lastAngle s) (showSettings s) (editIdx s)
    (editAmount s) (editName s) (showClearAlert s) (alerts s).

Definition setEntries (f : list slot -> list slot) (s : State) : State :=
  mkState (targetSum s) (progress s) (f (entries s)) (knobValue s)
    (pointerActive s) (lastAngle s) (showSettings s) (editIdx s)
    (editAmount s) (editName s) (showClearAlert s) (alerts s).

Definition setKnobValue (f : number -> number) (s : State) : State :=
  mkState (targetSum s) (progress s) (entries s) (f (knobValue s))
    (pointerActive s) (lastAngle s) (showSettings s) (editIdx s)
    (editAmount s) (editName s) (showClearAlert s) (alerts s).

Definition setPointerActive (b : bool) (s : State) : State :=
  mkState (targetSum s) (progress s) (entries s) (knobValue s)
    b (lastAngle s) (showSettings s) (editIdx s)
    (editAmount s) (editName s) (showClearAlert s) (alerts s).

Definition setLastAngle (x : option Z) (s : State) : State :=
  mkState (targetSum s) (progress s) (entries s) (knobValue s)
    (pointerActive s) x (showSettings s) (editIdx s)
    (editAmount s) (editName s) (showClearAlert s) (alerts s).

Definition setShowSettings (f : bool -> bool) (s : State) : State :=
  mkState (targetSum s) (progress s) (entries s) (knobValue s)
    (pointerActive s) (lastAngle s) (f (showSettings s)) (editIdx s)
    (editAmount s) (editName s) (showClearAlert s) (alerts s).

Definition setEditIdx (i : option nat) (s : State) : State :=
  mkState (targetSum s) (progress s) (entries s) (knobValue s)
    (pointerActive s) (lastAngle s) (showSettings s) i
    (editAmount s) (editName s) (showClearAlert s) (alerts s).

Definition setEditAmount (t : string) (s : State) : State :=
  mkState (targetSum s) (progress s) (entries s) (knobValue s)
    (pointerActive s) (lastAngle s) (showSettings s) (editIdx s)
    t (editName s) (showClearAlert s) (alerts s).

Definition setEditName (t : string) (s : State) : State :=
  mkState (targetSum s) (progress s) (entries s) (knobValue s)
    (pointerActive s) (lastAngle s) (showSettings s) (editIdx s)
    (editAmount s) t (showClearAlert s) (alerts s).

Definition setShowClearAlert (b : bool) (s : State) : State :=
  mkState (targetSum s) (progress s) (entries s) (knobValue s)
    (pointerActive s) (lastAngle s) (showSettings s) (editIdx s)
    (editAmount s) (editName s) b (alerts s).

Definition alert (msg : string) (s : State) : State :=
  mkState (targetSum s) (progress s) (entries s) (knobValue s)
    (pointerActive s) (lastAngle s) (showSettings s) (editIdx s)
    (editAmount s) (editName s) (showClearAlert s) (msg :: alerts s).

(** ** The ledger *)

(** [addEntry(amount, partName = "")]; [label] is [None] when the second
    argument is left out. *)
Definition addEntry (amount0 : value) (label : option string) (now : string)
    (s : State) : State :=
  let partName0 := default "" label in
  let newAmount := ToNumber amount0 in
  if (Number_isNaN newAmount || strict_eq newAmount (Fin 0))%bool then s
  else
    let entry :=
      {| amount := newAmount;
         partName := if string_truthy partName0 then Some partName0 else None;
         date := Some now |} in
    setProgress (fun p => num_add p newAmount)
      (setEntries (fun prev => Elem entry :: spread prev) s).

Definition cancelEdit (s : State) : State :=
  setEditName "" (setEditAmount "" (setEditIdx None s)).

Definition startEdit (idx : nat) (s : State) : State :=
  match get (entries s) idx with
  | None => s
  | Some entry =>
      setEditName (default "" (partName entry))
        (setEditAmount (NumberToString (amount entry))
           (setEditIdx (Some idx) s))
  end.

(** [Number(arr[i]?.amount ?? 0)]: the amount of the entry at [i], [0] when
    there is none. *)
Definition old_amount (arr : list slot) (i : nat) : number :=
  match get arr i with
  | Some e => amount e
  | None => Fin 0
  end.

(** [saveEdit()]: [entries], [editIdx], [editAmount] and [editName] are the
    variables of the closure, the state [s] the handler runs on. *)
Definition saveEdit (s : State) : State :=
  match editIdx s with
  | None => s
  | Some i =>
      let parsed := StringToNumber (editAmount s) in
      if Number_isNaN parsed then alert "Enter a valid numeric amount" s
      else
        let s1 :=
          setEntries (fun prev =>
            let prevEntry := get prev i in
            let updatedEntry :=
              {| amount := parsed;
                 partName := if string_truthy (editName s)
                             then Some (trim (editName s)) else None;
                 date := prevEntry ≫= date |} in
            array_set i (Elem updatedEntry) prev) s in
        let s2 :=
          setProgress (fun p =>
            let old := old_amount (entries s) i in
            num_add (num_sub p old) parsed) s1 in
        cancelEdit s2
  end.

Definition deleteEntry (idx : nat) (s : State) : State :=
  match get (entries s) idx with
  | None => s
  | Some ent =>
      let s0 := if decide (editIdx s = Some idx) then cancelEdit s else s in
      setProgress (fun p => num_sub p (amount ent))
        (setEntries (filter_index_ne idx) s0)
  end.

Definition clearAllEntries (s : State) : State :=
  setShowClearAlert false
    (cancelEdit (setProgress (fun _ => Fin 0) (setEntries (fun _ => []) s))).

(** The [Reset] button of the settings drawer. *)
Definition resetAll (s : State) : State :=
  cancelEdit (setEntries (fun _ => []) (setProgress (fun _ => Fin 0) s)).

(** The target input of the settings drawer:
    [onChange={(e) => setTargetSum(Number(e.target.value))}]. *)
Definition changeTarget (text : string) (s : State) : State :=
  setTargetSum (fun _ => StringToNumber text) s.

(** ** The pending value of the knob *)

(** The upper end of the range: [Math.max(1000, targetSum * 2)]. *)
Definition knobMax (s : State) : number :=
  Math_max (Fin 1000) (num_mul (targetSum s) (Fin 2)).

(** The quick buttons: [setKnobValue((v) => clamp(v + delta, 0, max))]. *)
Definition adjustKnob (delta : Z) (s : State) : State :=
  setKnobValue (fun v => clamp (num_add v (Fin delta)) (Fin 0) (knobMax s)) s.

Definition minus1k : State -> State := adjustKnob (-1000).
Definition plus1k : State -> State := adjustKnob 1000.
Definition minus10k : State -> State := adjustKnob (-10000).
Definition plus10k : State -> State := adjustKnob 10000.

Definition onPointerDown (clientX : Z) (s : State) : State :=
  setLastAngle (Some clientX) (setPointerActive true s).

Definition STEP_SIZE : Z := 10.

(** The step count [Math.round(deltaX / STEP_SIZE)] of a move to [clientX];
    [clientX - null] is [clientX]. *)
Definition dragSteps (clientX : Z) (s : State) : Z :=
  let deltaX := clientX - default 0 (lastAngle s) in
  Math_round_div deltaX STEP_SIZE.

Definition onPointerMove (clientX : Z) (s : State) : State :=
  if negb (pointerActive s) then s
  else
    let steps := dragSteps clientX s in
    if negb (steps =? 0) then
      setLastAngle (Some clientX)
        (setKnobValue (fun v =>
           clamp (num_add v (num_mul (Fin steps) (Fin 1000))) (Fin 0) (knobMax s)) s)
    else s.

Definition onPointerUp (s : State) : State := setPointerActive false s.

(** [commitKnob()] *)
Definition commitKnob (now : string) (s : State) : State :=
  setKnobValue (fun _ => Fin 1000) (addEntry (Vnumber (knobValue s)) (Some "") now s).

(** ** Persistent state *)

Module STORAGE_KEYS.
Definition TARGET : string := "fp_targetSum_v1".
Definition PROGRESS : string := "fp_progress_v1".
Definition ENTRIES : string := "fp_entries_v1".
End STORAGE_KEYS.

(** The result of an expression that may throw. *)
Inductive completion (A : Type) : Type :=
| Normal (a : A)
| Throw (err : string).

Arguments Normal {A} a.
Arguments Throw {A} err.

(** [localStorage.getItem(k)] is [ls !! k]: [null] for a missing key. *)

(** [raw ? Number(raw) : 100000] *)
Definition targetSum_init (ls : gmap string string) : number :=
  match ls !! STORAGE_KEYS.TARGET with
  | Some raw => if string_truthy raw then StringToNumber raw else Fin 100000
  | None => Fin 100000
  end.

(** [raw ? Number(raw) : 25000] *)
Definition progress_init (ls : gmap string string) : number :=
  match ls !! STORAGE_KEYS.PROGRESS with
  | Some raw => if string_truthy raw then StringToNumber raw else Fin 25000
  | None => Fin 25000
  end.

Section Storage.

(** [JSON.parse] on the text stored under [ENTRIES]: the array it denotes,
    or [None] when it throws a [SyntaxError].  A text that parses to
    something other than an array of entries has no place in the typed
    state and is not considered. *)
Variable JSON_parse : string -> option (list slot).

(** [JSON.stringify] on the entries. *)
Variable JSON_stringify : list slot -> string.

(** [JSON.parse(raw)] as an expression. *)
Definition JSON_parse_expr (raw : string) : completion (list slot) :=
  match JSON_parse raw with
  | Some arr => Normal arr
  | None => Throw "SyntaxError"
  end.

(** [try { return raw ? JSON.parse(raw) : []; } catch (err) { ...; return []; }]
    with what [console.error] receives. *)
Definition entries_init_logged (ls : gmap string string) : list slot * list string :=
  match ls !! STORAGE_KEYS.ENTRIES with
  | Some raw =>
      if string_truthy raw then
        match JSON_parse_expr raw with
        | Normal arr => (arr, [])
        | Throw _ => ([], ["Failed parsing entries from localStorage"])
        end
      else ([], [])
  | None => ([], [])
  end.

Definition entries_init (ls : gmap string string) : list slot :=
  fst (entries_init_logged ls).

(** The state of the first render. *)
Definition App_init (ls : gmap string string) : State :=
  {| targetSum := targetSum_init ls;
     progress := progress_init ls;
     entries := entries_init ls;
     knobValue := Fin 1000;
     pointerActive := false;
     lastAngle := None;
     showSettings := false;
     editIdx := None;
     editAmount := "";
     editName := "";
     showClearAlert := false;
     alerts := [] |}.

(** The three effects that write the state through to [localStorage]. *)
Definition persist (s : State) (ls : gmap string string) : gmap string string :=
  <[STORAGE_KEYS.ENTRIES := JSON_stringify (entries s)]>
    (<[STORAGE_KEYS.PROGRESS := NumberToString (progress s)]>
       (<[STORAGE_KEYS.TARGET := NumberToString (targetSum s)]> ls)).

End Storage.

(** ** The component of [src/App.jsx]

    The initialisers of the second copy of the component. *)
Module SrcApp.

(** [Number(localStorage.getItem(k)) || dflt]; [Number(null)] is [0]. *)
Definition number_init (k : string) (dflt : Z) (ls : gmap string string) : number :=
  let n := match ls !! k with
           | Some raw => StringToNumber raw
           | None => Fin 0
           end in
  if number_truthy n then n else Fin dflt.

Definition targetSum_init : gmap string string -> number :=
  number_init STORAGE_KEYS.TARGET 100000.

Definition progress_init : gmap string string -> number :=
  number_init STORAGE_KEYS.PROGRESS 25000.

(** [JSON.parse(localStorage.getItem(k) || "[]")], outside any [try];
    the text ["[]"] parses to the empty array. *)
Definition entries_init (JSON_parse : string -> option (list slot))
    (ls : gmap string string) : completion (list slot) :=
  match ls !! STORAGE_KEYS.ENTRIES with
  | Some raw =>
      if string_truthy raw then JSON_parse_expr JSON_parse raw else Normal []
  | None => Normal []
  end.

End SrcApp.

(** ** Events *)

Inductive event : Type :=
| EvAddEntry (amount0 : value) (label : option string) (now : string)
| EvCommitKnob (now : string)
| EvStartEdit (idx : nat)
| EvEditAmount (text : string)
| EvEditName (text : string)
| EvSaveEdit
| EvCancelEdit
| EvDeleteEntry (idx : nat)
| EvClearAll
| EvReset
| EvChangeTarget (text : string)
| EvMinus1k
| EvPlus1k
| EvMinus10k
| EvPlus10k
| EvPointerDown (clientX : Z)
| EvPointerMove (clientX : Z)
| EvPointerUp
| EvToggleSettings
| EvCloseSettings
| EvAskClear
| EvDismissClear.

Definition step (s : State) (ev : event) : State :=
  match ev with
  | EvAddEntry a l now => addEntry a l now s
  | EvCommitKnob now => commitKnob now s
  | EvStartEdit i => startEdit i s
  | EvEditAmount t => setEditAmount t s
  | EvEditName t => setEditName t s
  | EvSaveEdit => saveEdit s
  | EvCancelEdit => cancelEdit s
  | EvDeleteEntry i => deleteEntry i s
  | EvClearAll => clearAllEntries s
  | EvReset => resetAll s
  | EvChangeTarget t => changeTarget t s
  | EvMinus1k => minus1k s
  | EvPlus1k => plus1k s
  | EvMinus10k => minus10k s
  | EvPlus10k => plus10k s
  | EvPointerDown x => onPointerDown x s
  | EvPointerMove x => onPointerMove x s
  | EvPointerUp => onPointerUp s
  | EvToggleSettings => setShowSettings negb s
  | EvCloseSettings => setShowSettings (fun _ => false) (cancelEdit s)
  | EvAskClear => setShowClearAlert true s
  | EvDismissClear => setShowClearAlert false s
  end.

Definition run (evs : list event) (s : State) : State := fold_left step evs s.

(** [editEntry(index, newAmount, newLabel)]: open the row, type the two
    drafts, save. *)
Definition editEntry (idx : nat) (newAmount newLabel : string) : list event :=
  [EvStartEdit idx; EvEditAmount newAmount; EvEditName newLabel; EvSaveEdit].

(** The events that empty the ledger and set the progress to [0]. *)
Definition resets (ev : event) : bool :=
  match ev with
  | EvClearAll | EvReset => true
  | _ => false
  end.

(** ** The properties *)

(** The pending value is a number of [[0, max(1000, 2 * target)]]. *)
Definition knob_in_range (s : State) : Prop :=
  exists v t, knobValue s = Fin v /\ targetSum s = Fin t /\
              0 <= v <= Z.max 1000 (2 * t).

(** The state of the first render when nothing is stored. *)
Definition default_state : State :=
  {| targetSum := Fin 100000;
     progress := Fin 25000;
     entries := [];
     knobValue := Fin 1000;
     pointerActive := false;
     lastAngle := None;
     showSettings := false;
     editIdx := None;
     editAmount := "";
     editName := "";
     showClearAlert := false;
     alerts := [] |}.

(** [addEntry(2000)], then [editEntry(0, 500, "rent")]. *)
Definition scenario_add_then_edit (now : string) : list event :=
  EvAddEntry (Vnumber (Fin 2000)) None now :: editEntry 0 "500" "rent".

(** The only text this reader accepts is that of the empty array; it stands
    for [JSON.parse] where a concrete reader is called for. *)
Definition parse_empty_array (raw : string) : option (list slot) :=
  if decide (raw = "[]") then Some [] else None.

(** ** What the settings drawer renders *)

(** [arr.map] calls its function at the indices below the length that are
    not holes. *)
Definition visited (arr : list slot) (i : nat) : bool :=
  match arr !! i with
  | Some Hole | None => false
  | Some _ => true
  end.

(** The [Save] button: the drawer is open and the row [editIdx] is one the
    list of the drawer visits ([{showSettings && ...}],
    [entries.map((e, i) => ... editIdx === i ? ... onClick={saveEdit}]). *)
Definition save_rendered (s : State) : bool :=
  showSettings s &&
  match editIdx s with
  | Some i => visited (entries s) i
  | None => false
  end.

(** A sequence of events in which [saveEdit] only runs when its button is
    on the screen. *)
Fixpoint saves_rendered (evs : list event) (s : State) : bool :=
  match evs with
  | [] => true
  | ev :: rest =>
      match ev with
      | EvSaveEdit => save_rendered s
      | _ => true
      end && saves_rendered rest (step s ev)
  end.

(** ** Pointer travel *)

(** The distance the pointer covers from [from] through the positions [xs]. *)
Fixpoint travel (from : Z) (xs : list Z) : Z :=
  match xs with
  | [] => 0
  | x :: rest => Z.abs (x - from) + travel x rest
  end.

(** ** Predicates on texts and arrays *)

(** A text of decimal digits. *)
Fixpoint all_digits (s : string) : bool :=
  match s with
  | EmptyString => true
  | String c s' =>
      match digit_value c with
      | Some _ => all_digits s'
      | None => false
      end
  end.

(** Every index of the array holds an entry: no hole, no [undefined]. *)
Definition dense (arr : list slot) : Prop :=
  Forall (fun x => exists e, x = Elem e) arr.


(** ** Doubles *)

Module Double.

(** *** Values and rounding *)

(** A double: a finite value (the rational it denotes, in lowest terms;
    the two zeros are one), an infinity, or NaN. *)
Inductive double : Type :=
| Finite (q : Q)
| PosInf
| NegInf
| NotANumber.

(** [floor(log2(n / d))] *)
Definition floor_log2 (n d : positive) : Z :=
  let k := Z.log2 (Zpos n) - Z.log2 (Zpos d) in
  if Zpos d * 2 ^ Z.max k 0 <=? Zpos n * 2 ^ Z.max (- k) 0 then k else k - 1.

(** The double nearest to [n / d], ties to the even significand: 53 bits
    of significand, least exponent [-1074], overflow from [2^1024]. *)
Definition round_pos (n d : positive) : double :=
  let e := floor_log2 n d in
  let sh := Z.max (e - 52) (-1074) in
  let num := Zpos n * 2 ^ Z.max (- sh) 0 in
  let den := Zpos d * 2 ^ Z.max sh 0 in
  let q := num / den in
  let r := num mod den in
  let m := if 2 * r <? den then q
           else if 2 * r =? den then (if Z.even q then q else q + 1)
           else q + 1 in
  if ((971 <? sh) || ((sh =? 971) && (m =? 2 ^ 53)))%bool then PosInf
  else Finite (Qred (m * 2 ^ Z.max sh 0 # Z.to_pos (2 ^ Z.max (- sh) 0))).

Definition neg (a : double) : double :=
  match a with
  | Finite q => Finite (Qopp q)
  | PosInf => NegInf
  | NegInf => PosInf
  | NotANumber => NotANumber
  end.

Definition round (q : Q) : double :=
  match Qnum q with
  | Z0 => Finite 0
  | Zpos n => round_pos n (Qden q)
  | Zneg n => neg (round_pos n (Qden q))
  end.

Definition add (a b : double) : double :=
  match a, b with
  | NotANumber, _ | _, NotANumber => NotANumber
  | PosInf, NegInf | NegInf, PosInf => NotANumber
  | PosInf, _ | _, PosInf => PosInf
  | NegInf, _ | _, NegInf => NegInf
  | Finite x, Finite y => round (Qplus x y)
  end.

Definition sub (a b : double) : double := add a (neg b).


Definition mul (a b : double) : double :=
  match a, b with
  | NotANumber, _ | _, NotANumber => NotANumber
  | Finite x, Finite y => round (Qmult x y)
  | Finite x, PosInf | PosInf, Finite x =>
      match Qnum x with Z0 => NotANumber | Zpos _ => PosInf | Zneg _ => NegInf end
  | Finite x, NegInf | NegInf, Finite x =>
      match Qnum x with Z0 => NotANumber | Zpos _ => NegInf | Zneg _ => PosInf end
  | PosInf, PosInf | NegInf, NegInf => PosInf
  | PosInf, NegInf | NegInf, PosInf => NegInf
  end.

(** [a / d] for a positive integer [d]. *)
Definition div_pos (a : double) (d : positive) : double :=
  match a with
  | Finite x => round (Qmult x (1 # d))
  | _ => a
  end.

(** [Math.round]: the integer nearest to the argument, a tie going up. *)
Definition Math_round (a : double) : double :=
  match a with
  | Finite x => Finite (inject_Z (Qfloor (Qplus x (1 # 2))))
  | _ => a
  end.

Definition isNaN (a : double) : bool :=
  match a with NotANumber => true | _ => false end.

Definition is_zero (a : double) : bool :=
  match a with Finite q => Qnum q =? 0 | _ => false end.

(** [a <= b]; false when either is NaN. *)
Definition le (a b : double) : bool :=
  match a, b with
  | NotANumber, _ | _, NotANumber => false
  | NegInf, _ | _, PosInf => true
  | _, NegInf | PosInf, _ => false
  | Finite x, Finite y => Qle_bool x y
  end.

(** [a === b] *)
Definition strict_eq (a b : double) : bool :=
  match a, b with
  | Finite x, Finite y => Qeq_bool x y
  | PosInf, PosInf | NegInf, NegInf => true
  | _, _ => false
  end.

Definition Math_max (a b : double) : double :=
  match a, b with
  | NotANumber, _ | _, NotANumber => NotANumber
  | _, _ => if le a b then b else a
  end.

Definition Math_min (a b : double) : double :=
  match a, b with
  | NotANumber, _ | _, NotANumber => NotANumber
  | _, _ => if le a b then a else b
  end.

(** Truthiness of a number: not [NaN] and not zero. *)
Definition truthy (a : double) : bool := negb (isNaN a || is_zero a).

(** *** Texts *)

Definition byte (c : ascii) : nat := nat_of_ascii c.

(** White space and line terminators of one byte. *)
Definition white1 (c : ascii) : bool :=
  (((9 <=? byte c)%nat && (byte c <=? 13)%nat) || (byte c =? 32)%nat)%bool.

(** U+00A0 in UTF-8. *)
Definition white2 (c1 c2 : ascii) : bool :=
  ((byte c1 =? 194)%nat && (byte c2 =? 160)%nat)%bool.

(** U+1680, U+2000 to U+200A, U+2028, U+2029, U+202F, U+205F, U+3000 and
    U+FEFF in UTF-8. *)
Definition white3 (c1 c2 c3 : ascii) : bool :=
  let b1 := byte c1 in let b2 := byte c2 in let b3 := byte c3 in
  (((b1 =? 225) && (b2 =? 154) && (b3 =? 128))
   || ((b1 =? 226) && (b2 =? 128) &&
       (((128 <=? b3) && (b3 <=? 138)) || (b3 =? 168) || (b3 =? 169) || (b3 =? 175)))
   || ((b1 =? 226) && (b2 =? 129) && (b3 =? 159))
   || ((b1 =? 227) && (b2 =? 128) && (b3 =? 128))
   || ((b1 =? 239) && (b2 =? 187) && (b3 =? 191)))%nat%bool.

Fixpoint trimStart (s : string) : string :=
  match s with
  | String c1 r1 =>
      if white1 c1 then trimStart r1
      else match r1 with
           | String c2 r2 =>
               if white2 c1 c2 then trimStart r2
               else match r2 with
                    | String c3 r3 => if white3 c1 c2 c3 then trimStart r3 else s
                    | EmptyString => s
                    end
           | EmptyString => s
           end
  | EmptyString => EmptyString
  end.

Fixpoint all_white (s : string) : bool :=
  match s with
  | String c1 r1 =>
      if white1 c1 then all_white r1
      else match r1 with
           | String c2 r2 =>
               if white2 c1 c2 then all_white r2
               else match r2 with
                    | String c3 r3 => if white3 c1 c2 c3 then all_white r3 else false
                    | EmptyString => false
                    end
           | EmptyString => false
           end
  | EmptyString => true
  end.

Fixpoint trimEnd (s : string) : string :=
  match s with
  | String c r => if all_white s then EmptyString else String c (trimEnd r)
  | EmptyString => EmptyString
  end.

(** [s.trim()] *)
Definition trim (s : string) : string := trimEnd (trimStart s).

Definition digit_of (radix : Z) (c : ascii) : option Z :=
  let b := Z.of_nat (byte c) in
  let v := if (48 <=? b) && (b <=? 57) then Some (b - 48)
           else if (97 <=? b) && (b <=? 102) then Some (b - 87)
           else if (65 <=? b) && (b <=? 70) then Some (b - 55)
           else None in
  match v with
  | Some d => if d <? radix then Some d else None
  | None => None
  end.

(** The leading digits of [s] in the radix: their value on top of [acc],
    their number on top of [n], and the rest of the text. *)
Fixpoint span_digits (radix acc : Z) (n : nat) (s : string) : Z * nat * string :=
  match s with
  | String c r =>
      match digit_of radix c with
      | Some d => span_digits radix (radix * acc + d) (S n) r
      | None => (acc, n, s)
      end
  | EmptyString => (acc, n, s)
  end.

(** [m * 10^e] as a double, for a mantissa [m >= 0] written with [len]
    digits. *)
Definition of_decimal (m : Z) (len : nat) (e : Z) : double :=
  if m =? 0 then Finite 0
  else if 0 <=? e then
    if 400 <? e then PosInf else round (inject_Z (m * 10 ^ e))
  else if Z.of_nat len + 400 <? - e then Finite 0
  else round (m # Z.to_pos (10 ^ (- e))).

(** The exponent part: empty, or [e], an optional sign and digits. *)
Definition exponent_part (s : string) : option Z :=
  match s with
  | EmptyString => Some 0
  | String c r =>
      if ((byte c =? 101) || (byte c =? 69))%nat%bool then
        let '(sign, r') :=
          match r with
          | String "+" r' => (1, r')
          | String "-" r' => (-1, r')
          | _ => (1, r)
          end in
        match span_digits 10 0 0 r' with
        | (v, S _, EmptyString) => Some (sign * v)
        | _ => None
        end
      else None
  end.

(** [StrUnsignedDecimalLiteral]: [Infinity], or digits with an optional
    fraction and exponent. *)
Definition unsigned_decimal (s : string) : double :=
  if String.eqb s "Infinity" then PosInf
  else
    let '(ip, ni, r1) := span_digits 10 0 0 s in
    let '(m, nf, r2) :=
      match r1 with
      | String "." r => span_digits 10 ip 0 r
      | _ => (ip, 0%nat, r1)
      end in
    match (ni + nf)%nat, exponent_part r2 with
    | S _, Some e => of_decimal m (ni + nf) (e - Z.of_nat nf)
    | _, _ => NotANumber
    end.

(** [0x], [0o] and [0b] literals. *)
Definition non_decimal (s : string) : option double :=
  match s with
  | String "0" (String c r) =>
      let radix :=
        if ((byte c =? 120) || (byte c =? 88))%nat%bool then Some 16
        else if ((byte c =? 111) || (byte c =? 79))%nat%bool then Some 8
        else if ((byte c =? 98) || (byte c =? 66))%nat%bool then Some 2
        else None in
      match radix with
      | Some rd =>
          match span_digits rd 0 0 r with
          | (v, S _, EmptyString) => Some (round (inject_Z v))
          | _ => Some NotANumber
          end
      | None => None
      end
  | _ => None
  end.

(** [Number(s)] on a string. *)
Definition StringToNumber (s : string) : double :=
  match trim s with
  | EmptyString => Finite 0
  | String "+" r => unsigned_decimal r
  | String "-" r => neg (unsigned_decimal r)
  | t => match non_decimal t with
         | Some d => d
         | None => unsigned_decimal t
         end
  end.


(** *** [String(n)] *)

(** [10^e <= n / d] *)
Definition ge_pow10 (n d : positive) (e : Z) : bool :=
  if 0 <=? e then Zpos d * 10 ^ e <=? Zpos n
  else Zpos d <=? Zpos n * 10 ^ (- e).

Fixpoint adjust_log10 (fuel : nat) (n d : positive) (e : Z) : Z :=
  match fuel with
  | O => e
  | S f =>
      if negb (ge_pow10 n d e) then adjust_log10 f n d (e - 1)
      else if ge_pow10 n d (e + 1) then adjust_log10 f n d (e + 1)
      else e
  end.

(** [floor(log10(n / d))] *)
Definition floor_log10 (n d : positive) : Z :=
  adjust_log10 4 n d ((floor_log2 n d * 1233) / 4096).

(** [s * 10^(-p)] *)
Definition scaled (s p : Z) : Q :=
  if 0 <=? p then s # Z.to_pos (10 ^ p) else inject_Z (s * 10 ^ (- p)).

(** The shortest decimal that reads back as [x]: the digits [s] and the
    exponent [n] with [x] nearest to [s * 10^(n - k)], [k] the number of
    digits of [s]; of two decimals of that length the nearer one, the even
    one on a tie. *)
Fixpoint shortest (fuel : nat) (k : Z) (x : Q) (e10 : Z) : Z * Z :=
  match fuel with
  | O => (0, 0)
  | S f =>
      let p := k - 1 - e10 in
      let t := Qmult x (scaled 1 (- p)) in
      let lo := Qfloor t in
      let hi := lo + 1 in
      let ok_lo := strict_eq (round (scaled lo p)) (Finite x) in
      let ok_hi := strict_eq (round (scaled hi p)) (Finite x) in
      let up := if hi =? 10 ^ k then (10 ^ (k - 1), e10 + 2) else (hi, e10 + 1) in
      match ok_lo, ok_hi with
      | true, false => (lo, e10 + 1)
      | false, true => up
      | true, true =>
          match Qcompare (Qminus t (inject_Z lo)) (Qminus (inject_Z hi) t) with
          | Lt => (lo, e10 + 1)
          | Gt => up
          | Eq => if Z.even lo then (lo, e10 + 1) else up
          end
      | false, false => shortest f (k + 1) x e10
      end
  end.

Fixpoint strip_zeros (fuel : nat) (s : Z) : Z :=
  match fuel with
  | O => s
  | S f => if (s mod 10 =? 0) && negb (s =? 0) then strip_zeros f (s / 10) else s
  end.

Fixpoint zeros (n : nat) : string :=
  match n with
  | O => EmptyString
  | S m => String "0" (zeros m)
  end.

Definition exponent_text (e : Z) : string :=
  (if 0 <=? e then "+" else "-") ++ pretty (Z.abs e).

(** [Number::toString] of a positive finite value. *)
Definition positive_to_string (n d : positive) : string :=
  let x := Zpos n # d in
  let '(s0, e) := shortest 17 1 x (floor_log10 n d) in
  let s := strip_zeros 17 s0 in
  let ds := pretty s in
  let k := Z.of_nat (String.length ds) in
  if (k <=? e) && (e <=? 21) then ds ++ zeros (Z.to_nat (e - k))
  else if (0 <? e) && (e <=? 21) then
    String.substring 0 (Z.to_nat e) ds ++ "." ++ String.substring (Z.to_nat e) (Z.to_nat (k - e)) ds
  else if (-6 <? e) && (e <=? 0) then "0." ++ zeros (Z.to_nat (- e)) ++ ds
  else if k =? 1 then ds ++ "e" ++ exponent_text (e - 1)
  else String.substring 0 1 ds ++ "." ++ String.substring 1 (Z.to_nat (k - 1)) ds
       ++ "e" ++ exponent_text (e - 1).

(** [String(n)] *)
Definition NumberToString (a : double) : string :=
  match a with
  | NotANumber => "NaN"
  | PosInf => "Infinity"
  | NegInf => "-Infinity"
  | Finite q =>
      match Qnum q with
      | Z0 => "0"
      | Zpos n => positive_to_string n (Qden q)
      | Zneg n => "-" ++ positive_to_string n (Qden q)
      end
  end.

End Double.

(** ** The component over doubles

    The same component with its numbers as doubles: the definitions of the
    first part with [Double] in the place of the integers, read off the
    same lines of the source. *)
Module DApp.

Inductive value : Type :=
| Vundefined
| Vnull
| Vbool (b : bool)
| Vnumber (n : Double.double)
| Vstring (s : string).

(** [Number(v)] *)
Definition ToNumber (v : value) : Double.double :=
  match v with
  | Vundefined => Double.NotANumber
  | Vnull => Double.Finite 0
  | Vbool true => Double.Finite 1
  | Vbool false => Double.Finite 0
  | Vnumber n => n
  | Vstring s => Double.StringToNumber s
  end.


Record Entry : Type := mkEntry {
  amount : Double.double;
  partName : option string;
  date : option string
}.

Inductive slot : Type :=
| Hole
| Undef
| Elem (e : Entry).

(** [arr[i]] *)
Definition get (arr : list slot) (i : nat) : option Entry :=
  match arr !! i with
  | Some (Elem e) => Some e
  | _ => None
  end.

(** [...arr] *)
Definition spread (arr : list slot) : list slot :=
  map (fun x => match x with Hole => Undef | _ => x end) arr.

(** [copy[i] = x] *)
Definition array_set (i : nat) (x : slot) (arr : list slot) : list slot :=
  if (i <? length arr)%nat then <[i := x]> arr
  else arr ++ replicate (i - length arr) Hole ++ [x].

(** [arr.filter((_, i) => i !== idx)], the indices counted from [i]. *)
Fixpoint filter_index_from (i idx : nat) (arr : list slot) : list slot :=
  match arr with
  | [] => []
  | x :: rest =>
      let r := filter_index_from (S i) idx rest in
      match x with
      | Hole => r
      | _ => if (i =? idx)%nat then r else x :: r
      end
  end.

Definition filter_index_ne (idx : nat) (arr : list slot) : list slot :=
  filter_index_from 0 idx arr.

(** The amounts of the entries present added to [acc] one after the other,
    first entry first. *)
Fixpoint sum_from (acc : Double.double) (arr : list slot) : Double.double :=
  match arr with
  | [] => acc
  | Elem e :: rest => sum_from (Double.add acc (amount e)) rest
  | _ :: rest => sum_from acc rest
  end.

Definition sum_amounts (arr : list slot) : Double.double :=
  sum_from (Double.Finite 0) arr.

Record State : Type := mkState {
  targetSum : Double.double;
  progress : Double.double;
  entries : list slot;
  knobValue : Double.double;
  pointerActive : bool;
  lastAngle : option Double.double;
  showSettings : bool;
  editIdx : option nat;
  editAmount : string;
  editName : string;
  showClearAlert : bool;
  alerts : list string
}.

Definition setTargetSum (f : Double.double -> Double.double) (s : State) : State :=
  mkState (f (targetSum s)) (progress s) (entries s) (knobValue s)
    (pointerActive s) (lastAngle s) (showSettings s) (editIdx s)
    (editAmount s) (editName s) (showClearAlert s) (alerts s).

Definition setProgress (f : Double.double -> Double.double) (s : State) : State :=
  mkState (targetSum s) (f (progress s)) (entries s) (knobValue s)
    (pointerActive s) (lastAngle s) (showSettings s) (editIdx s)
    (editAmount s) (editName s) (showClearAlert s) (alerts s).

Definition setEntries (f : list slot -> list slot) (s : State) : State :=
  mkState (targetSum s) (progress s) (f (entries s)) (knobValue s)
    (pointerActive s) (lastAngle s) (showSettings s) (editIdx s)
    (editAmount s) (editName s) (showClearAlert s) (alerts s).

Definition setKnobValue (f : Double.double -> Double.double) (s : State) : State :=
  mkState (targetSum s) (progress s) (entries s) (f (knobValue s))
    (pointerActive s) (lastAngle s) (showSettings s) (editIdx s)
    (editAmount s) (editName s) (showClearAlert s) (alerts s).

Definition setPointerActive (b : bool) (s : State) : State :=
  mkState (targetSum s) (progress s) (entries s) (knobValue s)
    b (lastAngle s) (showSettings s) (editIdx s)
    (editAmount s) (editName s) (showClearAlert s) (alerts s).

Definition setLastAngle (x : option Double.double) (s : State) : State :=
  mkState (targetSum s) (progress s) (entries s) (knobValue s)
    (pointerActive s) x (showSettings s) (editIdx s)
    (editAmount s) (editName s) (showClearAlert s) (alerts s).

Definition setShowSettings (f : bool -> bool) (s : State) : State :=
  mkState (targetSum s) (progress s) (entries s) (knobValue s)
    (pointerActive s) (lastAngle s) (f (showSettings s)) (editIdx s)
    (editAmount s) (editName s) (showClearAlert s) (alerts s).

Definition setEditIdx (i : option nat) (s : State) : State :=
  mkState (targetSum s) (progress s) (entries s) (knobValue s)
    (pointerActive s) (lastAngle s) (showSettings s) i
    (editAmount s) (editName s) (showClearAlert s) (alerts s).

Definition setEditAmount (t : string) (s : State) : State :=
  mkState (targetSum s) (progress s) (entries s) (knobValue s)
    (pointerActive s) (lastAngle s) (showSettings s) (editIdx s)
    t (editName s) (showClearAlert s) (alerts s).

Definition setEditName (t : string) (s : State) : State :=
  mkState (targetSum s) (progress s) (entries s) (knobValue s)
    (pointerActive s) (lastAngle s) (showSettings s) (editIdx s)
    (editAmount s) t (showClearAlert s) (alerts s).

Definition setShowClearAlert (b : bool) (s : State) : State :=
  mkState (targetSum s) (progress s) (entries s) (knobValue s)
    (pointerActive s) (lastAngle s) (showSettings s) (editIdx s)
    (editAmount s) (editName s) b (alerts s).

Definition alert (msg : string) (s : State) : State :=
  mkState (targetSum s) (progress s) (entries s) (knobValue s)
    (pointerActive s) (lastAngle s) (showSettings s) (editIdx s)
    (editAmount s) (editName s) (showClearAlert s) (msg :: alerts s).

(** [addEntry(amount, partName = "")] *)
Definition addEntry (amount0 : value) (label : option string) (now : string)
    (s : State) : State :=
  let partName0 := default "" label in
  let newAmount := ToNumber amount0 in
  if (Double.isNaN newAmount || Double.is_zero newAmount)%bool then s
  else
    let entry :=
      {| amount := newAmount;
         partName := if string_truthy partName0 then Some partName0 else None;
         date := Some now |} in
    setProgress (fun p => Double.add p newAmount)
      (setEntries (fun prev => Elem entry :: spread prev) s).

Definition cancelEdit (s : State) : State :=
  setEditName "" (setEditAmount "" (setEditIdx None s)).

Definition startEdit (idx : nat) (s : State) : State :=
  match get (entries s) idx with
  | None => s
  | Some entry =>
      setEditName (default "" (partName entry))
        (setEditAmount (Double.NumberToString (amount entry))
           (setEditIdx (Some idx) s))
  end.

(** [Number(arr[i]?.amount ?? 0)] *)
Definition old_amount (arr : list slot) (i : nat) : Double.double :=
  match get arr i with
  | Some e => amount e
  | None => Double.Finite 0
  end.

Definition saveEdit (s : State) : State :=
  match editIdx s with
  | None => s
  | Some i =>
      let parsed := Double.StringToNumber (editAmount s) in
      if Double.isNaN parsed then alert "Enter a valid numeric amount" s
      else
        let s1 :=
          setEntries (fun prev =>
            let prevEntry := get prev i in
            let updatedEntry :=
              {| amount := parsed;
                 partName := if string_truthy (editName s)
                             then Some (Double.trim (editName s)) else None;
                 date := prevEntry ≫= date |} in
            array_set i (Elem updatedEntry) prev) s in
        let s2 :=
          setProgress (fun p =>
            let old := old_amount (entries s) i in
            Double.add (Double.sub p old) parsed) s1 in
        cancelEdit s2
  end.

Definition deleteEntry (idx : nat) (s : State) : State :=
  match get (entries s) idx with
  | None => s
  | Some ent =>
      let s0 := if decide (editIdx s = Some idx) then cancelEdit s else s in
      setProgress (fun p => Double.sub p (amount ent))
        (setEntries (filter_index_ne idx) s0)
  end.

Definition clearAllEntries (s : State) : State :=
  setShowClearAlert false
    (cancelEdit (setProgress (fun _ => Double.Finite 0) (setEntries (fun _ => []) s))).

Definition resetAll (s : State) : State :=
  cancelEdit (setEntries (fun _ => []) (setProgress (fun _ => Double.Finite 0) s)).

Definition changeTarget (text : string) (s : State) : State :=
  setTargetSum (fun _ => Double.StringToNumber text) s.

(** [const clamp = (v, a, b) => Math.max(a, Math.min(b, v))] *)
Definition clamp (v a b : Double.double) : Double.double :=
  Double.Math_max a (Double.Math_min b v).

(** [Math.max(1000, targetSum * 2)] *)
Definition knobMax (s : State) : Double.double :=
  Double.Math_max (Double.Finite 1000) (Double.mul (targetSum s) (Double.Finite 2)).

Definition adjustKnob (delta : Z) (s : State) : State :=
  setKnobValue (fun v =>
    clamp (Double.add v (Double.Finite (inject_Z delta))) (Double.Finite 0) (knobMax s)) s.

Definition minus1k : State -> State := adjustKnob (-1000).
Definition plus1k : State -> State := adjustKnob 1000.
Definition minus10k : State -> State := adjustKnob (-10000).
Definition plus10k : State -> State := adjustKnob 10000.

Definition onPointerDown (clientX : Double.double) (s : State) : State :=
  setLastAngle (Some clientX) (setPointerActive true s).

Definition STEP_SIZE : positive := 10.

(** [Math.round(deltaX / STEP_SIZE)]; [clientX - null] is [clientX]. *)
Definition dragSteps (clientX : Double.double) (s : State) : Double.double :=
  let deltaX := Double.sub clientX (default (Double.Finite 0) (lastAngle s)) in
  Double.Math_round (Double.div_pos deltaX STEP_SIZE).

Definition onPointerMove (clientX : Double.double) (s : State) : State :=
  if negb (pointerActive s) then s
  else
    let steps := dragSteps clientX s in
    if negb (Double.strict_eq steps (Double.Finite 0)) then
      setLastAngle (Some clientX)
        (setKnobValue (fun v =>
           clamp (Double.add v (Double.mul steps (Double.Finite 1000)))
             (Double.Finite 0) (knobMax s)) s)
    else s.

Definition onPointerUp (s : State) : State := setPointerActive false s.

Definition commitKnob (now : string) (s : State) : State :=
  setKnobValue (fun _ => Double.Finite 1000)
    (addEntry (Vnumber (knobValue s)) (Some "") now s).

(** [raw ? Number(raw) : 100000] *)
Definition targetSum_init (ls : gmap string string) : Double.double :=
  match ls !! STORAGE_KEYS.TARGET with
  | Some raw =>
      if string_truthy raw then Double.StringToNumber raw else Double.Finite 100000
  | None => Double.Finite 100000
  end.

(** [raw ? Number(raw) : 25000] *)
Definition progress_init (ls : gmap string string) : Double.double :=
  match ls !! STORAGE_KEYS.PROGRESS with
  | Some raw =>
      if string_truthy raw then Double.StringToNumber raw else Double.Finite 25000
  | None => Double.Finite 25000
  end.

(** The entries initialiser, [JSON.parse] being the argument: the array a
    text denotes, or [None] where it throws. *)
Definition entries_init (JSON_parse : string -> option (list slot))
    (ls : gmap string string) : list slot :=
  match ls !! STORAGE_KEYS.ENTRIES with
  | Some raw =>
      if string_truthy raw then default [] (JSON_parse raw) else []
  | None => []
  end.

Definition App_init (JSON_parse : string -> option (list slot))
    (ls : gmap string string) : State :=
  {| targetSum := targetSum_init ls;
     progress := progress_init ls;
     entries := entries_init JSON_parse ls;
     knobValue := Double.Finite 1000;
     pointerActive := false;
     lastAngle := None;
     showSettings := false;
     editIdx := None;
     editAmount := "";
     editName := "";
     showClearAlert := false;
     alerts := [] |}.

(** The three effects that write the state through to [localStorage];
    [JSON.stringify] is the argument. *)
Definition persist (JSON_stringify : list slot -> string) (s : State)
    (ls : gmap string string) : gmap string string :=
  <[STORAGE_KEYS.ENTRIES := JSON_stringify (entries s)]>
    (<[STORAGE_KEYS.PROGRESS := Double.NumberToString (progress s)]>
       (<[STORAGE_KEYS.TARGET := Double.NumberToString (targetSum s)]> ls)).

(** [src/App.jsx]: [Number(localStorage.getItem(k)) || dflt]. *)
Definition Src_number_init (k : string) (dflt : Z) (ls : gmap string string)
    : Double.double :=
  let n := match ls !! k with
           | Some raw => Double.StringToNumber raw
           | None => Double.Finite 0
           end in
  if Double.truthy n then n else Double.Finite (inject_Z dflt).

Definition Src_targetSum_init : gmap string string -> Double.double :=
  Src_number_init STORAGE_KEYS.TARGET 100000.


Inductive event : Type :=
| EvAddEntry (amount0 : value) (label : option string) (now : string)
| EvCommitKnob (now : string)
| EvStartEdit (idx : nat)
| EvEditAmount (text : string)
| EvEditName (text : string)
| EvSaveEdit
| EvCancelEdit
| EvDeleteEntry (idx : nat)
| EvClearAll
| EvReset
| EvChangeTarget (text : string)
| EvMinus1k
| EvPlus1k
| EvMinus10k
| EvPlus10k
| EvPointerDown (clientX : Double.double)
| EvPointerMove (clientX : Double.double)
| EvPointerUp
| EvToggleSettings
| EvCloseSettings
| EvAskClear
| EvDismissClear.

Definition step (s : State) (ev : event) : State :=
  match ev with
  | EvAddEntry a l now => addEntry a l now s
  | EvCommitKnob now => commitKnob now s
  | EvStartEdit i => startEdit i s
  | EvEditAmount t => setEditAmount t s
  | EvEditName t => setEditName t s
  | EvSaveEdit => saveEdit s
  | EvCancelEdit => cancelEdit s
  | EvDeleteEntry i => deleteEntry i s
  | EvClearAll => clearAllEntries s
  | EvReset => resetAll s
  | EvChangeTarget t => changeTarget t s
  | EvMinus1k => minus1k s
  | EvPlus1k => plus1k s
  | EvMinus10k => minus10k s
  | EvPlus10k => plus10k s
  | EvPointerDown x => onPointerDown x s
  | EvPointerMove x => onPointerMove x s
  | EvPointerUp => onPointerUp s
  | EvToggleSettings => setShowSettings negb s
  | EvCloseSettings => setShowSettings (fun _ => false) (cancelEdit s)
  | EvAskClear => setShowClearAlert true s
  | EvDismissClear => setShowClearAlert false s
  end.

Definition run (evs : list event) (s : State) : State := fold_left step evs s.

Definition resets (ev : event) : bool :=
  match ev with
  | EvClearAll | EvReset => true
  | _ => false
  end.

(** The state of the first render when nothing is stored. *)
Definition default_state : State :=
  {| targetSum := Double.Finite 100000;
     progress := Double.Finite 25000;
     entries := [];
     knobValue := Double.Finite 1000;
     pointerActive := false;
     lastAngle := None;
     showSettings := false;
     editIdx := None;
     editAmount := "";
     editName := "";
     showClearAlert := false;
     alerts := [] |}.

(** [progress === baseline + sum of the amounts] *)
Definition ledger_invariant (baseline : Double.double) (s : State) : Prop :=
  Double.strict_eq (progress s) (Double.add baseline (sum_amounts (entries s))) = true.

(** The integer a double is, when it is one. *)
Definition int_of (a : Double.double) : option Z :=
  match a with
  | Double.Finite (z # 1) => Some z
  | _ => None
  end.

(** The sum of the absolute values of the amounts, when all are integers. *)
Fixpoint abs_total (arr : list slot) : option Z :=
  match arr with
  | [] => Some 0
  | Elem e :: rest =>
      match int_of (amount e), abs_total rest with
      | Some z, Some t => Some (Z.abs z + t)
      | _, _ => None
      end
  | _ :: rest => abs_total rest
  end.

(** The sum of the amounts that are integers. *)
Fixpoint zsum (arr : list slot) : Z :=
  match arr with
  | [] => 0
  | Elem e :: rest => default 0 (int_of (amount e)) + zsum rest
  | _ :: rest => zsum rest
  end.

(** The amounts in the ledger are integers, and the baseline and the
    amounts together stay below [2^53] in absolute value, so that every
    sum of them is a double. *)
Definition safe (baseline : Z) (s : State) : Prop :=
  exists t, abs_total (entries s) = Some t /\ Z.abs baseline + t < 2 ^ 53.

Definition baseline_step (baseline : Z) (ev : event) : Z :=
  if resets ev then 0 else baseline.

(** The ledger of every state of the run is safe for the baseline the
    run has there. *)
Fixpoint safe_run (baseline : Z) (evs : list event) (s : State) : Prop :=
  safe baseline s /\
  match evs with
  | [] => True
  | ev :: rest => safe_run (baseline_step baseline ev) rest (step s ev)
  end.

(** [Math.max(0, targetSum - progress)] *)
Definition remaining (s : State) : Double.double :=
  Double.Math_max (Double.Finite 0) (Double.sub (targetSum s) (progress s)).

(** The values of the two slices of [pieData]. *)
Definition pieData (s : State) : Double.double * Double.double :=
  (Double.Math_min (progress s) (targetSum s),
   Double.Math_max (Double.Finite 0) (Double.sub (targetSum s) (progress s))).

(** The pending value is in [[0, max(1000, 2 * target)]]. *)
Definition knob_in_range (s : State) : Prop :=
  Double.le (Double.Finite 0) (knobValue s) = true /\
  Double.le (knobValue s) (knobMax s) = true.

End DApp.

(** * Properties *)

(** ** The conversions on samples *)

Example StringToNumber_samples :
  StringToNumber "abc" = NaN /\ StringToNumber "" = Fin 0 /\
  StringToNumber " 500 " = Fin 500 /\ StringToNumber "-2000" = Fin (-2000) /\
  StringToNumber "+7" = Fin 7 /\ StringToNumber "-" = NaN /\
  StringToNumber "12px" = NaN /\ StringToNumber "100000" = Fin 100000.
Proof. repeat split; reflexivity. Qed.

Example trim_samples :
  trim "  rent " = "rent" /\ trim "" = "" /\ trim "   " = "" /\ trim "a b" = "a b".
Proof. repeat split; reflexivity. Qed.

Example Math_round_div_samples :
  Math_round_div 25 10 = 3 /\ Math_round_div (-25) 10 = -2 /\
  Math_round_div 4 10 = 0 /\ Math_round_div 5 10 = 1 /\
  Math_round_div (-5) 10 = 0 /\ Math_round_div (-6) 10 = -1.
Proof. repeat split; reflexivity. Qed.

(** ** The handlers on samples *)

Example addEntry_bonus :
  let s := addEntry (Vnumber (Fin 5000)) (Some "bonus") "2024-05-01T10:00:00.000Z"
             default_state in
  progress s = Fin 30000 /\
  entries s = [Elem (mkEntry (Fin 5000) (Some "bonus") (Some "2024-05-01T10:00:00.000Z"))].
Proof. split; reflexivity. Qed.

Example deleteEntry_single :
  let s := setEntries (fun _ => [Elem (mkEntry (Fin 500) None (Some "d"))])
             (setProgress (fun _ => Fin 25500) default_state) in
  entries (deleteEntry 0 s) = [] /\ progress (deleteEntry 0 s) = Fin 25000 /\
  deleteEntry 1 s = s.
Proof. repeat split; reflexivity. Qed.

(** [saveEdit] with an index past the end extends the array and counts the
    new amount in full; the [filter] of [deleteEntry] then drops the hole. *)
Example saveEdit_past_the_end :
  let e0 := mkEntry (Fin 500) None (Some "d") in
  let s := setEditName " rent " (setEditAmount "70" (setEditIdx (Some 2%nat)
             (setEntries (fun _ => [Elem e0])
                (setProgress (fun _ => Fin 25500) default_state)))) in
  entries (saveEdit s) = [Elem e0; Hole; Elem (mkEntry (Fin 70) (Some "rent") None)] /\
  progress (saveEdit s) = Fin 25570 /\
  entries (deleteEntry 0 (saveEdit s)) = [Elem (mkEntry (Fin 70) (Some "rent") None)] /\
  progress (deleteEntry 0 (saveEdit s)) = Fin 25070.
Proof. repeat split; reflexivity. Qed.

Example saveEdit_rejects_text :
  let s := setEditAmount "12px" (setEditIdx (Some 0%nat) default_state) in
  saveEdit s = alert "Enter a valid numeric amount" s.
Proof. reflexivity. Qed.

Lemma onPointerMove_ledger (x : Z) (s : State) :
  entries (onPointerMove x s) = entries s /\
  progress (onPointerMove x s) = progress s.
Proof.
  unfold onPointerMove.
  destruct (pointerActive s); simpl; [|done].
  by destruct (dragSteps x s =? 0).
Qed.

(** ** [addEntry] *)

(** An array without holes is prepended to as it is. *)
Lemma spread_dense (arr : list slot) : Hole ∉ arr -> spread arr = arr.
Proof.
  induction arr as [|x arr IH]; intros H; [reflexivity|].
  apply not_elem_of_cons in H as [Hx H]. simpl. rewrite IH by exact H.
  by destruct x.
Qed.

(** ** The quick buttons on samples *)

Example quick_buttons_samples :
  knobValue (minus10k default_state) = Fin 0 /\
  knobValue (minus1k default_state) = Fin 0 /\
  knobValue (plus1k default_state) = Fin 2000 /\
  knobValue (plus10k default_state) = Fin 11000 /\
  knobValue (run (replicate 25 EvPlus10k) default_state) = Fin 200000.
Proof. repeat split; reflexivity. Qed.

(** ** The drag gesture *)

(** Pointer down at 100, one move to 125: the pending value goes from 1000
    to 4000, three steps and not two. *)
Lemma drag_25px_is_three_steps :
  let s := run [EvPointerDown 100; EvPointerMove 125] default_state in
  knobValue default_state = Fin 1000 /\
  knobValue s = Fin 4000 /\
  knobValue s <> Fin (1000 + 2000) /\
  knobValue s <> Fin (1000 - 2000).
Proof. repeat split; try reflexivity; intros H; vm_compute in H; discriminate. Qed.

(** The same 25 pixels sampled one pixel at a time: a step at every fifth
    pixel to the right, at every sixth to the left. *)
Example drag_25px_pixel_by_pixel :
  knobValue (run (EvPointerDown 100 :: map (fun d => EvPointerMove (100 + Z.of_nat d))
                                        (seq 1 25)) default_state) = Fin 6000 /\
  knobValue (run (EvPointerDown 100 :: map (fun d => EvPointerMove (100 - Z.of_nat d))
                                        (seq 1 25))
               (run (replicate 9 EvPlus1k) default_state)) = Fin 6000.
Proof. split; reflexivity. Qed.

(** C5, amended.  While a drag is active, a pointer move changes the
    pending value by a whole number of steps of 1000, the count being
    [Math.round(deltaX / 10)] with [deltaX] measured from the reference
    position, and the value is then clamped; the reference position moves
    to the pointer exactly when the count is not zero.  One move 25 pixels
    to the right is 3 steps (+3000), one move 25 pixels to the left is 2
    steps (-2000): never 2.5. *)
Theorem drag_moves_whole_steps (s : State) (x0 v : Z) :
  pointerActive s = true ->
  lastAngle s = Some x0 ->
  knobValue s = Fin v ->
  (forall x,
     let steps := Math_round_div (x - x0) 10 in
     knobValue (onPointerMove x s) =
       (if steps =? 0 then Fin v
        else clamp (Fin (v + steps * 1000)) (Fin 0) (knobMax s)) /\
     lastAngle (onPointerMove x s) = Some (if steps =? 0 then x0 else x)) /\
  knobValue (onPointerMove (x0 + 25) s) = clamp (Fin (v + 3000)) (Fin 0) (knobMax s) /\
  knobValue (onPointerMove (x0 - 25) s) = clamp (Fin (v - 2000)) (Fin 0) (knobMax s).
Proof.
  intros Ha Hl Hv.
  assert (forall x,
     knobValue (onPointerMove x s) =
       (if Math_round_div (x - x0) 10 =? 0 then Fin v
        else clamp (Fin (v + Math_round_div (x - x0) 10 * 1000)) (Fin 0) (knobMax s)) /\
     lastAngle (onPointerMove x s) =
       Some (if Math_round_div (x - x0) 10 =? 0 then x0 else x)) as Hgen.
  { intros x. unfold onPointerMove, dragSteps, STEP_SIZE. rewrite Ha, Hl. simpl.
    destruct (Math_round_div (x - x0) 10 =? 0); simpl; rewrite ?Hv; auto. }
  split; [exact Hgen|]. split.
  - rewrite (proj1 (Hgen (x0 + 25))).
    replace (x0 + 25 - x0) with 25 by lia. reflexivity.
  - rewrite (proj1 (Hgen (x0 - 25))).
    replace (x0 - 25 - x0) with (-25) by lia. reflexivity.
Qed.

Lemma drag_moves_whole_steps_witness :
  knobValue (onPointerMove 125 (onPointerDown 100 default_state)) = Fin 4000 /\
  knobValue (onPointerMove 75 (onPointerDown 100 (plus10k default_state))) = Fin 9000.
Proof.
  split.
  - destruct (drag_moves_whole_steps (onPointerDown 100 default_state) 100 1000
                eq_refl eq_refl eq_refl) as (_ & H & _).
    exact H.
  - destruct (drag_moves_whole_steps (onPointerDown 100 (plus10k default_state)) 100 11000
                eq_refl eq_refl eq_refl) as (_ & _ & H).
    exact H.
Defined.

(** ** Adding, then editing *)

(** The progress after the scenario is not 23000. *)
Lemma add_then_edit_progress_is_not_23000 :
  progress (run (scenario_add_then_edit "2024-05-01T10:00:00.000Z") default_state)
    <> Fin 23000.
Proof. intros H. vm_compute in H. discriminate. Qed.

(** C6, amended.  From the first render without stored values (progress
    25000, no entries), [addEntry(2000)] and then the edit of entry 0 to
    the amount 500 and the label ["rent"] leave the progress at
    25000 + 2000 - 2000 + 500 = 25500, and entry 0 is
    [{amount: 500, partName: "rent"}] with the date of the original entry:
    the edit adds [newAmount - oldAmount] to the progress and replaces the
    entry at the index. *)
Theorem add_then_edit_scenario
    (JSON_parse : string -> option (list slot)) (now : string) :
  let s := run (scenario_add_then_edit now) (App_init JSON_parse ∅) in
  progress s = Fin 25500 /\
  entries s = [Elem {| amount := Fin 500; partName := Some "rent"; date := Some now |}] /\
  editIdx s = None /\ alerts s = [].
Proof. repeat split; reflexivity. Qed.

(** ** Loading the entries *)

(** C7.  In [App.jsx] the initialiser of the entries gives the empty array
    when the key is missing and when [JSON.parse] throws on the stored
    text, and alerts nothing.  In [src/App.jsx] the call to [JSON.parse]
    stands outside any [try]: a missing key gives the empty array, a text
    that does not parse makes the initialiser throw. *)
Theorem entries_init_unparseable
    (JSON_parse : string -> option (list slot)) (ls : gmap string string) :
  (ls !! STORAGE_KEYS.ENTRIES = None \/
   exists raw, ls !! STORAGE_KEYS.ENTRIES = Some raw /\ JSON_parse raw = None) ->
  (entries (App_init JSON_parse ls) = [] /\ alerts (App_init JSON_parse ls) = []) /\
  (ls !! STORAGE_KEYS.ENTRIES = None ->
     SrcApp.entries_init JSON_parse ls = Normal []) /\
  (forall raw, ls !! STORAGE_KEYS.ENTRIES = Some raw -> raw <> "" ->
     SrcApp.entries_init JSON_parse ls = Throw "SyntaxError").
Proof.
  intros H. simpl.
  unfold entries_init, entries_init_logged, SrcApp.entries_init, JSON_parse_expr.
  destruct H as [-> | (raw & -> & Hraw)].
  - split; [by split|]. split; [reflexivity|]. intros raw; discriminate.
  - rewrite Hraw. split; [|split].
    + by destruct (string_truthy raw).
    + discriminate.
    + intros raw' [= <-] Hne. by destruct raw.
Qed.

Lemma entries_init_unparseable_witness :
  entries (App_init parse_empty_array {[STORAGE_KEYS.ENTRIES := "[{"]}) = [] /\
  SrcApp.entries_init parse_empty_array {[STORAGE_KEYS.ENTRIES := "[{"]} =
    Throw "SyntaxError".
Proof.
  destruct (entries_init_unparseable parse_empty_array
              {[STORAGE_KEYS.ENTRIES := "[{"]}) as ((He & _) & _ & Hsrc).
  - right. exists "[{". split; reflexivity.
  - split; [exact He|]. apply (Hsrc "[{"); [reflexivity | discriminate].
Defined.

(** ** Clearing the ledger *)

(** C8.  [clearAllEntries] leaves the progress at [0] and no entries, and
    run on its own result it returns that result. *)
Theorem clearAllEntries_idempotent (s : State) :
  progress (clearAllEntries s) = Fin 0 /\
  entries (clearAllEntries s) = [] /\
  clearAllEntries (clearAllEntries s) = clearAllEntries s.
Proof. repeat split; reflexivity. Qed.

(** ** Committing the pending value *)

(** C9.  [commitKnob] always leaves the pending value at 1000; when the
    pending value was [0], [addEntry] has returned at once and the rest of
    the state -- ledger, progress, alerts -- is as before. *)
Theorem commitKnob_resets_pending (now : string) (s : State) :
  knobValue (commitKnob now s) = Fin 1000 /\
  (knobValue s = Fin 0 -> commitKnob now s = setKnobValue (fun _ => Fin 1000) s).
Proof.
  split.
  - reflexivity.
  - intros H0. unfold commitKnob, addEntry. simpl. by rewrite H0.
Qed.

Lemma commitKnob_resets_pending_witness :
  commitKnob "2024-05-01T10:00:00.000Z" (minus1k default_state) = default_state.
Proof.
  rewrite (proj2 (commitKnob_resets_pending "2024-05-01T10:00:00.000Z"
                    (minus1k default_state)) eq_refl).
  reflexivity.
Defined.

(** ** Changing the target *)

(** C10.  A change of the target input sets the target to the number typed
    and leaves every other part of the state -- pending value, progress,
    ledger -- as it was.  The pending value is not clamped again: raised to
    200000 under the target 100000, it is outside the range of the target
    500 after the change, and the next quick button brings it back. *)
Theorem changeTarget_frame (text : string) (s : State) :
  (changeTarget text s = setTargetSum (fun _ => StringToNumber text) s /\
   targetSum (changeTarget text s) = StringToNumber text /\
   knobValue (changeTarget text s) = knobValue s /\
   progress (changeTarget text s) = progress s /\
   entries (changeTarget text s) = entries s) /\
  (let s1 := run (replicate 20 EvPlus10k) default_state in
   knob_in_range s1 /\
   knobValue (changeTarget "500" s1) = Fin 200000 /\
   ~ knob_in_range (changeTarget "500" s1) /\
   knob_in_range (minus1k (changeTarget "500" s1))).
Proof.
  split; [repeat split; reflexivity|].
  split; [|split; [reflexivity|split]].
  - exists 200000, 100000. repeat split; try reflexivity; lia.
  - intros (v & t & Hv & Ht & Hr). vm_compute in Hv, Ht.
    injection Hv as <-. injection Ht as <-. lia.
  - exists 1000, 500. repeat split; try reflexivity; lia.
Qed.

(** * Further properties *)

(** ** [String] and [Number] on the numbers of the model *)

Lemma digit_not_white (c : ascii) (d : Z) : digit_value c = Some d -> is_white c = false.
Proof.
  unfold digit_value, is_white. cbv zeta.
  destruct (Nat.leb_spec 48 (nat_of_ascii c)); [|discriminate]. intros _.
  destruct (Nat.leb_spec (nat_of_ascii c) 13); [lia|].
  rewrite andb_false_r. simpl. apply Nat.eqb_neq. lia.
Qed.

Lemma trimEnd_digits (s : string) : all_digits s = true -> trimEnd s = s.
Proof.
  induction s as [|c s IH]; simpl; [reflexivity|].
  destruct (digit_value c) as [d|] eqn:Hd; [|discriminate].
  intros Hs. rewrite (IH Hs). destruct s; [|reflexivity].
  by rewrite (digit_not_white c d Hd).
Qed.

Lemma trim_digits (s : string) : all_digits s = true -> trim s = s.
Proof.
  intros Hs. unfold trim.
  assert (trimStart s = s) as ->; [|by apply trimEnd_digits].
  destruct s as [|c s]; [reflexivity|]. simpl in *.
  destruct (digit_value c) as [d|] eqn:Hd; [|discriminate].
  by rewrite (digit_not_white c d Hd).
Qed.

Lemma pretty_N_char_digit (x : N) :
  (x < 10)%N -> digit_value (pretty_N_char x) = Some (Z.of_N x).
Proof.
  intros Hx.
  assert (x = 0 ∨ x = 1 ∨ x = 2 ∨ x = 3 ∨ x = 4 ∨ x = 5 ∨ x = 6 ∨ x = 7
          ∨ x = 8 ∨ x = 9)%N as H by lia.
  repeat destruct H as [->|H]; try subst x; reflexivity.
Qed.

Lemma pretty_N_go_digits (x : N) (s : string) :
  all_digits s = true -> all_digits (pretty_N_go x s) = true.
Proof.
  revert s. induction (N.lt_wf_0 x) as [x _ IH]; intros s Hs.
  assert (x = 0 ∨ 0 < x)%N as [->|Hx] by lia; [by rewrite pretty_N_go_0|].
  rewrite pretty_N_go_step by done. apply IH; [by apply N.div_lt|].
  simpl. by rewrite pretty_N_char_digit by (apply N.mod_lt; lia).
Qed.

Lemma pretty_N_go_value (x : N) :
  exists k : Z, 0 <= k /\ forall acc s,
    digits_value acc (pretty_N_go x s) = digits_value (acc * 10 ^ k + Z.of_N x) s.
Proof.
  induction (N.lt_wf_0 x) as [x _ IH].
  assert (x = 0 ∨ 0 < x)%N as [->|Hx] by lia.
  - exists 0. split; [lia|]. intros acc s. rewrite pretty_N_go_0. f_equal. simpl. lia.
  - destruct (IH (x `div` 10)%N) as (k & Hk & IHk); [by apply N.div_lt|].
    exists (k + 1). split; [lia|]. intros acc s.
    rewrite pretty_N_go_step, IHk by done. simpl.
    rewrite pretty_N_char_digit by (apply N.mod_lt; lia). f_equal.
    rewrite Z.pow_add_r, Z.pow_1_r by lia.
    assert (Z.of_N x = 10 * Z.of_N (x `div` 10) + Z.of_N (x `mod` 10)) as ->.
    { pose proof (N.div_mod x 10 ltac:(lia)) as Hdm.
      apply (f_equal Z.of_N) in Hdm. rewrite N2Z.inj_add, N2Z.inj_mul in Hdm.
      exact Hdm. }
    lia.
Qed.

Lemma pretty_N_go_nonempty (x : N) (s : string) :
  (0 < x)%N -> exists c r d, pretty_N_go x s = String c r /\ digit_value c = Some d.
Proof.
  revert s. induction (N.lt_wf_0 x) as [x _ IH]; intros s Hx.
  rewrite pretty_N_go_step by done.
  destruct (N.eq_0_gt_0_cases (x `div` 10)) as [->|Hd].
  - rewrite pretty_N_go_0. eexists _, _, _. split; [reflexivity|].
    apply pretty_N_char_digit, N.mod_lt. lia.
  - apply IH; [by apply N.div_lt | done].
Qed.

Lemma StringToNumber_pretty_N (x : N) :
  (0 < x)%N -> StringToNumber (pretty_N_go x "") = Fin (Z.of_N x) /\
               trim (pretty_N_go x "") = pretty_N_go x "" /\
               unsigned_decimal (pretty_N_go x "") = Fin (Z.of_N x).
Proof.
  intros Hx.
  assert (trim (pretty_N_go x "") = pretty_N_go x "") as Ht
    by (by apply trim_digits, pretty_N_go_digits).
  assert (unsigned_decimal (pretty_N_go x "") = Fin (Z.of_N x)) as Hu.
  { unfold unsigned_decimal.
    destruct (pretty_N_go_value x) as (k & _ & Hv).
    destruct (pretty_N_go_nonempty x "" Hx) as (c & r & d & Hc & _).
    rewrite (Hv 0 ""). rewrite Hc. simpl. f_equal; lia. }
  split; [|by split].
  unfold StringToNumber. rewrite Ht.
  destruct (pretty_N_go_nonempty x "" Hx) as (c & r & d & Hc & Hd).
  rewrite <- Hu. rewrite Hc.
  assert (c <> "+"%char /\ c <> "-"%char) as [Hp Hm].
  { split; intros ->; discriminate Hd. }
  destruct c as [[] [] [] [] [] [] [] []]; try reflexivity; congruence.
Qed.

(** [Number(String(n))] is [n], [NaN] included. *)
Lemma StringToNumber_NumberToString (n : number) :
  StringToNumber (NumberToString n) = n.
Proof.
  destruct n as [[|p|p]|]; try reflexivity.
  - exact (proj1 (StringToNumber_pretty_N (Npos p) ltac:(lia))).
  - destruct (StringToNumber_pretty_N (Npos p) ltac:(lia)) as (_ & Ht & Hu).
    change (NumberToString (Fin (Z.neg p))) with (String "-" (pretty_N_go (N.pos p) "")).
    unfold StringToNumber, trim. cbn [trimStart]. change (is_white "-") with false.
    cbv iota.
    assert (trimEnd (String "-" (pretty_N_go (N.pos p) "")) =
            String "-" (pretty_N_go (N.pos p) "")) as ->.
    { cbn [trimEnd]. unfold trim in Ht.
      destruct (pretty_N_go_nonempty (Npos p) "" ltac:(lia)) as (c & r & d & Hc & Hd).
      assert (trimEnd (pretty_N_go (N.pos p) "") = pretty_N_go (N.pos p) "") as ->
        by (by apply trimEnd_digits, pretty_N_go_digits).
      by rewrite Hc. }
    rewrite Hu. simpl. reflexivity.
Qed.

(** ** [clamp] *)



(** ** The drag gesture, move by move *)

Lemma Math_round_div_10_spec (d : Z) :
  20 * Math_round_div d 10 <= 2 * d + 10 < 20 * Math_round_div d 10 + 20.
Proof.
  unfold Math_round_div. change (2 * 10) with 20.
  pose proof (Z.div_mod (2 * d + 10) 20 ltac:(lia)) as Hdm.
  pose proof (Z.mod_pos_bound (2 * d + 10) 20 ltac:(lia)) as Hm.
  lia.
Qed.


Lemma Math_round_div_10_bound (d : Z) :
  Math_round_div d 10 <> 0 -> 5 * Z.abs (Math_round_div d 10) <= Z.abs d.
Proof. pose proof (Math_round_div_10_spec d). lia. Qed.

Lemma onPointerMove_inactive (x : Z) (s : State) :
  pointerActive s = false -> onPointerMove x s = s.
Proof. intros H. unfold onPointerMove. by rewrite H. Qed.

(** X4.  Once the pointer is released ([onPointerUp]), and in any state
    whose drag is not active, pointer moves change nothing at all, however
    many and wherever they are. *)
Theorem released_pointer_moves_nothing (xs : list Z) (s : State) :
  run (map EvPointerMove xs) (onPointerUp s) = onPointerUp s /\
  (pointerActive s = false -> run (map EvPointerMove xs) s = s).
Proof.
  assert (forall s0, pointerActive s0 = false -> run (map EvPointerMove xs) s0 = s0) as H.
  { induction xs as [|x xs IH]; intros s0 H0; [reflexivity|].
    cbn [map run fold_left step]. rewrite (onPointerMove_inactive x s0 H0).
    by apply IH. }
  split; [by apply H | apply H].
Qed.

Lemma released_pointer_moves_nothing_witness :
  run (map EvPointerMove [40; 90; 500]) default_state = default_state.
Proof.
  apply (released_pointer_moves_nothing [40; 90; 500] default_state). reflexivity.
Defined.



(** Five pixels right and back: the step to the right is taken, the one
    back is not, for a tie is rounded towards the right; the pending value
    stays 1000 higher.  Five pixels left and back is no step at all. *)
Example drag_back_and_forth :
  knobValue (run (EvPointerDown 100 :: map EvPointerMove [105; 100]) default_state)
    = Fin 2000 /\
  knobValue (run (EvPointerDown 100 :: map EvPointerMove [95; 100]) default_state)
    = Fin 1000.
Proof. split; reflexivity. Qed.

(** ** Committing from the knob *)



(** ** Arrays: assignment and removal at an index *)



Lemma array_set_in_range (arr : list slot) (i : nat) (x : slot) :
  (i < length arr)%nat -> array_set i x arr = <[i := x]> arr.
Proof. intros Hi. unfold array_set. by destruct (Nat.ltb_spec i (length arr)); [|lia]. Qed.

Lemma dense_no_hole (arr : list slot) : dense arr -> Hole ∉ arr.
Proof.
  unfold dense. rewrite Forall_forall. intros H Hin.
  destruct (H Hole Hin) as [e He]. discriminate.
Qed.

Lemma filter_index_from_delete (arr : list slot) (k i : nat) :
  Hole ∉ arr -> filter_index_from k (k + i) arr = delete i arr.
Proof.
  revert k i. induction arr as [|x arr IH]; intros k i Hh; [reflexivity|].
  apply not_elem_of_cons in Hh as [Hx Hh]. simpl.
  destruct i as [|i].
  - replace (k + 0)%nat with k by lia. rewrite Nat.eqb_refl.
    assert (forall l j, Hole ∉ l -> (k < j)%nat -> filter_index_from j k l = l) as Hpast.
    { induction l as [|y l IHl]; intros j Hl Hj; [reflexivity|].
      apply not_elem_of_cons in Hl as [Hy Hl]. simpl.
      destruct (Nat.eqb_spec j k); [lia|].
      rewrite IHl by (done || lia). by destruct y. }
    rewrite Hpast by (done || lia). by destruct x.
  - destruct (Nat.eqb_spec k (k + S i)); [lia|].
    replace (k + S i)%nat with (S k + i)%nat by lia.
    rewrite IH by done. by destruct x.
Qed.

(** ** Editing an entry *)





(** ** Deleting an entry *)

Lemma deleteEntry_session (idx : nat) (s : State) :
  editIdx s = Some idx \/
  (editIdx (deleteEntry idx s) = editIdx s /\
   editAmount (deleteEntry idx s) = editAmount s /\
   editName (deleteEntry idx s) = editName s).
Proof.
  unfold deleteEntry. destruct (get (entries s) idx); [|by right].
  destruct (decide (editIdx s = Some idx)); [by left | by right].
Qed.

Lemma deleteEntry_entries (idx : nat) (s : State) (e : Entry) :
  get (entries s) idx = Some e -> Hole ∉ entries s ->
  entries (deleteEntry idx s) = delete idx (entries s).
Proof.
  intros Hg Hh. unfold deleteEntry. rewrite Hg. cbn [setProgress setEntries entries].
  assert (entries (if decide (editIdx s = Some idx) then cancelEdit s else s)
          = entries s) as -> by (by destruct (decide _)).
  exact (filter_index_from_delete (entries s) 0 idx Hh).
Qed.



(** X12.  Deleting a row above the one being edited keeps the edit session
    as it is -- index and drafts -- while the entries below move up by one:
    in an array without holes the session then points at the entry that
    followed the one it was opened on, or past the end when there was
    none. *)
Theorem deleteEntry_shifts_rows_under_session (idx j : nat) (s : State) (e : Entry) :
  editIdx s = Some j -> (idx < j)%nat ->
  get (entries s) idx = Some e -> Hole ∉ entries s ->
  editIdx (deleteEntry idx s) = Some j /\
  editAmount (deleteEntry idx s) = editAmount s /\
  editName (deleteEntry idx s) = editName s /\
  get (entries (deleteEntry idx s)) j = get (entries s) (S j) /\
  (S j = length (entries s) -> get (entries (deleteEntry idx s)) j = None).
Proof.
  intros Hj Hlt Hg Hh.
  destruct (deleteEntry_session idx s) as [Heq | (H1 & H2 & H3)].
  { rewrite Hj in Heq. injection Heq as ->. lia. }
  rewrite H1, H2, H3, Hj. repeat split.
  - rewrite (deleteEntry_entries idx s e Hg Hh).
    unfold get. by rewrite list_lookup_delete_ge by lia.
  - intros Hlen.
    rewrite (deleteEntry_entries idx s e Hg Hh).
    unfold get. rewrite list_lookup_delete_ge by lia.
    by rewrite lookup_ge_None_2 by lia.
Qed.

Lemma deleteEntry_shifts_rows_under_session_witness :
  let s := run [EvAddEntry (Vnumber (Fin 10)) None "d1";
                EvAddEntry (Vnumber (Fin 20)) None "d2";
                EvAddEntry (Vnumber (Fin 30)) None "d3";
                EvStartEdit 1] default_state in
  editIdx (deleteEntry 0 s) = Some 1%nat /\
  editAmount (deleteEntry 0 s) = "20" /\
  get (entries (deleteEntry 0 s)) 1 = Some (mkEntry (Fin 10) None (Some "d1")).
Proof.
  intros s.
  destruct (deleteEntry_shifts_rows_under_session 0 1 s
              (mkEntry (Fin 30) None (Some "d3")) eq_refl ltac:(lia) eq_refl)
    as (Hi & Ha & _ & Hg & _).
  - vm_compute. intros H. by repeat (apply elem_of_cons in H as [H|H]; [discriminate|]);
      apply elem_of_nil in H.
  - split; [exact Hi | split; [exact Ha | exact Hg]].
Defined.

(** ** The array stays dense *)

Lemma Forall_filter_index_from (P : slot -> Prop) (arr : list slot) (k idx : nat) :
  Forall P arr -> Forall P (filter_index_from k idx arr).
Proof.
  revert k. induction arr as [|x arr IH]; intros k H; [constructor|].
  apply Forall_cons in H as [Hx H]. simpl.
  destruct x; [by apply IH | |]; destruct (k =? idx)%nat; auto.
Qed.

Lemma dense_spread (arr : list slot) : dense arr -> spread arr = arr.
Proof. intros H. by apply spread_dense, dense_no_hole. Qed.

Lemma visited_lt (arr : list slot) (i : nat) :
  visited arr i = true -> (i < length arr)%nat.
Proof.
  unfold visited. destruct (arr !! i) eqn:H; [|discriminate].
  intros _. by eapply lookup_lt_Some.
Qed.

Lemma step_dense (ev : event) (s : State) :
  dense (entries s) ->
  (ev = EvSaveEdit -> save_rendered s = true) ->
  dense (entries (step s ev)).
Proof.
  intros Hd Hsave.
  destruct ev as [a l now | now | idx | txt | txt | | | idx | | | txt
                 | | | | | x | x | | | | | ]; cbn [step]; try exact Hd.
  - unfold addEntry. destruct (_ || _)%bool; [exact Hd|]. simpl.
    rewrite dense_spread by done. apply Forall_cons. eauto.
  - unfold commitKnob, addEntry. destruct (_ || _)%bool; [exact Hd|]. simpl.
    rewrite dense_spread by done. apply Forall_cons. eauto.
  - unfold startEdit. by destruct (get (entries s) idx).
  - specialize (Hsave eq_refl). unfold save_rendered in Hsave.
    apply andb_true_iff in Hsave as [_ Hrow].
    unfold saveEdit. destruct (editIdx s) as [i|]; [|discriminate].
    destruct (Number_isNaN _); [exact Hd|]. simpl.
    rewrite array_set_in_range by (by apply visited_lt).
    apply Forall_insert; eauto.
  - unfold deleteEntry. destruct (get (entries s) idx); [|exact Hd].
    cbn [setProgress setEntries entries].
    apply Forall_filter_index_from. by destruct (decide _).
  - constructor.
  - constructor.
  - unfold onPointerMove. destruct (pointerActive s); [|exact Hd]. simpl.
    by destruct (dragSteps x s =? 0).
Qed.

(** X14.  As long as [saveEdit] runs only when its button is rendered (the
    drawer open, the edited row one of those listed), an array of entries
    without holes and without [undefined] stays one along every sequence of
    events, so the lists of the render, which read [e.partName] at every
    index, find an entry there.  The loaded array and the empty one are the
    starting points. *)
Theorem entries_stay_dense (evs : list event) (s : State) :
  saves_rendered evs s = true ->
  dense (entries s) ->
  dense (entries (run evs s)).
Proof.
  revert s. induction evs as [|ev evs IH]; intros s Hr Hd; [exact Hd|].
  cbn [saves_rendered] in Hr. apply andb_true_iff in Hr as [Hev Hrest].
  cbn [run fold_left]. apply IH; [exact Hrest|].
  apply step_dense; [exact Hd|]. by intros ->.
Qed.

Lemma entries_stay_dense_witness :
  dense (entries (run [EvCommitKnob "d1"; EvPlus1k; EvCommitKnob "d2"; EvToggleSettings;
                       EvStartEdit 0; EvDeleteEntry 1; EvEditAmount "7"; EvSaveEdit]
                    default_state)).
Proof.
  apply (entries_stay_dense
           [EvCommitKnob "d1"; EvPlus1k; EvCommitKnob "d2"; EvToggleSettings;
            EvStartEdit 0; EvDeleteEntry 1; EvEditAmount "7"; EvSaveEdit] default_state).
  - reflexivity.
  - constructor.
Defined.

(** Without that condition a hole appears: the row being edited is the
    third, two rows above it are deleted, and [saveEdit] writes at index 2
    of an array of length 1. *)
Example unrendered_saveEdit_leaves_a_hole :
  let evs := [EvCommitKnob "d1"; EvCommitKnob "d2"; EvCommitKnob "d3"; EvToggleSettings;
              EvStartEdit 2; EvDeleteEntry 0; EvDeleteEntry 0; EvSaveEdit] in
  saves_rendered evs default_state = false /\
  entries (run evs default_state) =
    [Elem (mkEntry (Fin 1000) None (Some "d1")); Hole;
     Elem (mkEntry (Fin 1000) None None)].
Proof. split; reflexivity. Qed.

(** ** No [NaN] enters the ledger *)







(** ** After a reset *)

(** X16.  [clearAllEntries] and the [Reset] button leave the same state but
    for the confirmation dialog, which only the first closes; neither
    touches the target or the pending value.  After either, the handlers of
    the rows -- [startEdit], [deleteEntry] at any index, [saveEdit],
    [cancelEdit] -- change nothing, and a pointer move or a quick button
    never undoes the reset. *)
Theorem reset_leaves_nothing_to_edit (s : State) (i : nat) :
  clearAllEntries s = setShowClearAlert false (resetAll s) /\
  targetSum (resetAll s) = targetSum s /\ knobValue (resetAll s) = knobValue s /\
  (forall s', s' = clearAllEntries s \/ s' = resetAll s ->
     startEdit i s' = s' /\ deleteEntry i s' = s' /\ saveEdit s' = s' /\
     cancelEdit s' = s' /\
     forall ev, resets ev = false ->
       (forall a l now, ev <> EvAddEntry a l now) -> (forall now, ev <> EvCommitKnob now) ->
       entries (step s' ev) = [] /\ progress (step s' ev) = Fin 0).
Proof.
  split; [reflexivity|]. split; [reflexivity|]. split; [reflexivity|].
  intros s' Hs'.
  assert (entries s' = [] /\ progress s' = Fin 0 /\ editIdx s' = None /\
          editAmount s' = "" /\ editName s' = "") as (He & Hp & Hi & Ha & Hn)
    by (destruct Hs' as [-> | ->]; by repeat split).
  assert (forall j, startEdit j s' = s') as Hstart'
    by (intros j; unfold startEdit, get; rewrite He; by destruct j).
  pose proof (Hstart' i) as Hstart.
  assert (forall j, deleteEntry j s' = s') as Hdel
    by (intros j; unfold deleteEntry, get; rewrite He; by destruct j).
  assert (saveEdit s' = s') as Hsave by (unfold saveEdit; by rewrite Hi).
  assert (cancelEdit s' = s') as Hcancel.
  { destruct s'. simpl in *. subst. reflexivity. }
  split; [done|]. split; [done|]. split; [done|]. split; [done|].
  intros ev _ Hadd Hcommit.
  destruct ev as [a l now | now | idx | txt | txt | | | idx | | | txt
                 | | | | | x | x | | | | | ]; cbn [step]; try done.
  - by destruct (Hadd a l now).
  - by destruct (Hcommit now).
  - by rewrite Hstart'.
  - by rewrite Hsave.
  - by rewrite Hdel.
  - by destruct (onPointerMove_ledger x s') as [-> ->].
Qed.

Lemma reset_leaves_nothing_to_edit_witness :
  let s := run [EvCommitKnob "d1"; EvToggleSettings; EvStartEdit 0; EvEditAmount "70"]
             default_state in
  startEdit 0 (resetAll s) = resetAll s /\ deleteEntry 0 (resetAll s) = resetAll s /\
  saveEdit (resetAll s) = resetAll s /\
  entries (step (clearAllEntries s) (EvPointerMove 300)) = [].
Proof.
  intros s.
  destruct (reset_leaves_nothing_to_edit s 0) as (_ & _ & _ & H).
  destruct (H (resetAll s) (or_intror eq_refl)) as (H1 & H2 & H3 & _).
  destruct (H (clearAllEntries s) (or_introl eq_refl)) as (_ & _ & _ & _ & H4).
  split; [exact H1 | split; [exact H2 | split; [exact H3|]]].
  apply (H4 (EvPointerMove 300)); [reflexivity | discriminate | discriminate].
Defined.

(** ** One edit session at a time *)

Lemma startEdit_entries (i : nat) (s : State) : entries (startEdit i s) = entries s.
Proof. unfold startEdit. by destruct (get (entries s) i). Qed.

(** X17.  Opening a row while another is open replaces the session: the
    state is the one [startEdit] gives without the earlier call, the drafts
    of the first row are gone.  Opening an index that holds no entry leaves
    the state, an open session included, as it is. *)
Theorem startEdit_overwrites_session (i j : nat) (s : State) :
  (is_Some (get (entries s) j) -> startEdit j (startEdit i s) = startEdit j s) /\
  (get (entries s) j = None -> startEdit j (startEdit i s) = startEdit i s) /\
  (forall e, get (entries s) j = Some e ->
     editIdx (startEdit j s) = Some j /\
     editAmount (startEdit j s) = NumberToString (amount e) /\
     editName (startEdit j s) = default "" (partName e)).
Proof.
  split; [|split].
  - intros [e He]. unfold startEdit at 1 3. rewrite startEdit_entries, He.
    unfold startEdit. by destruct (get (entries s) i).
  - intros He. unfold startEdit at 1. by rewrite startEdit_entries, He.
  - intros e He. unfold startEdit. by rewrite He.
Qed.

Lemma startEdit_overwrites_session_witness :
  let s := run [EvCommitKnob "d1"; EvPlus1k; EvCommitKnob "d2"] default_state in
  startEdit 1 (startEdit 0 s) = startEdit 1 s /\
  startEdit 5 (startEdit 0 s) = startEdit 0 s /\
  editAmount (startEdit 1 s) = "1000".
Proof.
  intros s.
  destruct (startEdit_overwrites_session 0 1 s) as (H1 & _ & H3).
  destruct (startEdit_overwrites_session 0 5 s) as (_ & H2 & _).
  split; [apply H1; by eexists | split; [by apply H2|]].
  by destruct (H3 (mkEntry (Fin 1000) None (Some "d1")) eq_refl) as (_ & -> & _).
Defined.

(** ** Writing the state and reading it back *)

Lemma persist_lookup (JSON_stringify : list slot -> string) (s : State)
    (ls : gmap string string) :
  persist JSON_stringify s ls !! STORAGE_KEYS.TARGET = Some (NumberToString (targetSum s)) /\
  persist JSON_stringify s ls !! STORAGE_KEYS.PROGRESS = Some (NumberToString (progress s)) /\
  persist JSON_stringify s ls !! STORAGE_KEYS.ENTRIES = Some (JSON_stringify (entries s)).
Proof.
  unfold persist. repeat split.
  - rewrite lookup_insert_ne by done. rewrite lookup_insert_ne by done.
    apply lookup_insert_eq.
  - rewrite lookup_insert_ne by done. apply lookup_insert_eq.
  - apply lookup_insert_eq.
Qed.

(** X19.  In [src/App.jsx] a target or a progress of [0] does not survive
    writing and reading: the initialisers take the [0] they read for a
    missing value and return the defaults 100000 and 25000.  Every other
    number comes back as it was, and [NaN] comes back as the default. *)
Theorem SrcApp_persist_then_load (JSON_stringify : list slot -> string) (s : State)
    (ls : gmap string string) :
  SrcApp.targetSum_init (persist JSON_stringify s ls) =
    (if number_truthy (targetSum s) then targetSum s else Fin 100000) /\
  SrcApp.progress_init (persist JSON_stringify s ls) =
    (if number_truthy (progress s) then progress s else Fin 25000) /\
  (progress s = Fin 0 -> SrcApp.progress_init (persist JSON_stringify s ls) = Fin 25000) /\
  (forall z, z <> 0 -> targetSum s = Fin z ->
     SrcApp.targetSum_init (persist JSON_stringify s ls) = Fin z).
Proof.
  destruct (persist_lookup JSON_stringify s ls) as (Ht & Hp & _).
  unfold SrcApp.targetSum_init, SrcApp.progress_init, SrcApp.number_init.
  rewrite Ht, Hp, !StringToNumber_NumberToString.
  repeat split.
  - by intros ->.
  - intros z Hz ->. simpl. by destruct (Z.eqb_spec z 0).
Qed.

Lemma SrcApp_persist_then_load_witness :
  SrcApp.progress_init (persist (fun _ => "[]") (clearAllEntries default_state) ∅)
    = Fin 25000 /\
  SrcApp.targetSum_init (persist (fun _ => "[]") (changeTarget "5000" default_state) ∅)
    = Fin 5000.
Proof.
  split.
  - apply (SrcApp_persist_then_load (fun _ => "[]") (clearAllEntries default_state) ∅).
    reflexivity.
  - apply (SrcApp_persist_then_load (fun _ => "[]") (changeTarget "5000" default_state) ∅
             ) with (z := 5000); [lia | reflexivity].
Defined.

(** ** The two copies of the entries initialiser *)

(** X21.  The initialiser of the entries in [App.jsx] is the one of
    [src/App.jsx] inside a [try]: it returns the array the other returns,
    and the empty array where the other throws; it logs to the console in
    that case and in no other. *)
Theorem entries_init_is_guarded_SrcApp (JSON_parse : string -> option (list slot))
    (ls : gmap string string) :
  entries_init_logged JSON_parse ls =
  match SrcApp.entries_init JSON_parse ls with
  | Normal arr => (arr, [])
  | Throw _ => ([], ["Failed parsing entries from localStorage"])
  end.
Proof.
  unfold entries_init_logged, SrcApp.entries_init.
  destruct (ls !! STORAGE_KEYS.ENTRIES) as [raw|]; [|reflexivity].
  destruct (string_truthy raw); reflexivity.
Qed.

(** * The component over doubles: properties *)

(** ** Integers among the doubles *)

Lemma Qred_inject_Z (z : Z) : Qred (inject_Z z) = inject_Z z.
Proof.
  unfold Qred, inject_Z.
  pose proof (Z.ggcd_gcd z 1) as Hg.
  pose proof (Z.ggcd_correct_divisors z 1) as Hd.
  destruct (Z.ggcd z 1) as [g [aa bb]]. simpl in *.
  rewrite Z.gcd_1_r in Hg. subst g. destruct Hd as [Ha Hb].
  assert (aa = z) as -> by lia. assert (bb = 1) as -> by lia. reflexivity.
Qed.

Lemma round_pos_int (n : positive) :
  Zpos n < 2 ^ 53 -> Double.round_pos n 1 = Double.Finite (inject_Z (Zpos n)).
Proof.
  intros Hn. unfold Double.round_pos, Double.floor_log2.
  change (Z.log2 1) with 0. rewrite Z.sub_0_r.
  set (k := Z.log2 (Z.pos n)).
  assert (0 <= k) as Hk0 by apply Z.log2_nonneg.
  assert (2 ^ k <= Z.pos n) as Hlow by (apply Z.log2_spec; lia).
  assert (k < 53) as Hk by (apply Z.log2_lt_pow2; lia).
  rewrite (Z.max_l k 0), (Z.max_r (- k) 0) by lia.
  change (2 ^ 0) with 1.
  destruct (Z.leb_spec (1 * 2 ^ k) (Z.pos n * 1)) as [_|]; [|lia].
  cbv zeta.
  rewrite (Z.max_l (k - 52) (-1074)) by lia.
  rewrite (Z.max_l (- (k - 52)) 0), (Z.max_r (k - 52) 0) by lia.
  change (2 ^ 0) with 1. rewrite !Z.mul_1_r, Z.div_1_r, Z.mod_1_r.
  change (2 * 0 <? 1) with true. cbv iota.
  destruct (Z.ltb_spec 971 (k - 52)); [lia|].
  destruct (Z.eqb_spec (k - 52) 971); [lia|]. simpl orb. cbv iota.
  f_equal. rewrite <- Qred_inject_Z. apply Qred_complete.
  unfold Qeq, inject_Z. simpl Qnum. simpl Qden.
  rewrite Z2Pos.id by (apply Z.pow_pos_nonneg; lia). lia.
Qed.

Lemma round_int (z : Z) :
  Z.abs z < 2 ^ 53 -> Double.round (inject_Z z) = Double.Finite (inject_Z z).
Proof.
  intros Hz. unfold Double.round. destruct z as [|n|n]; cbn [inject_Z Qnum Qden].
  - reflexivity.
  - apply round_pos_int. lia.
  - rewrite round_pos_int by lia. reflexivity.
Qed.

Lemma add_int (a b : Z) :
  Z.abs (a + b) < 2 ^ 53 ->
  Double.add (Double.Finite (inject_Z a)) (Double.Finite (inject_Z b)) =
  Double.Finite (inject_Z (a + b)).
Proof.
  intros H. unfold Double.add.
  assert (Qplus (inject_Z a) (inject_Z b) = inject_Z (a + b)) as ->
    by (unfold Qplus, inject_Z; simpl; f_equal; lia).
  by apply round_int.
Qed.

Lemma sub_int (a b : Z) :
  Z.abs (a - b) < 2 ^ 53 ->
  Double.sub (Double.Finite (inject_Z a)) (Double.Finite (inject_Z b)) =
  Double.Finite (inject_Z (a - b)).
Proof.
  intros H. unfold Double.sub.
  change (Double.neg (Double.Finite (inject_Z b))) with (Double.Finite (inject_Z (- b))).
  rewrite add_int by (replace (a + - b) with (a - b) by lia; done).
  do 2 f_equal; lia.
Qed.

Lemma int_of_Some (a : Double.double) (z : Z) :
  DApp.int_of a = Some z <-> a = Double.Finite (inject_Z z).
Proof.
  split.
  - destruct a as [[n [d|d|]]| | |]; simpl; try discriminate. by intros [= ->].
  - intros ->. reflexivity.
Qed.

(** ** Sums of integer amounts are exact *)

Lemma abs_total_bound (arr : list DApp.slot) (t : Z) :
  DApp.abs_total arr = Some t -> 0 <= t /\ Z.abs (DApp.zsum arr) <= t.
Proof.
  revert t. induction arr as [|x arr IH]; intros t H; simpl in *.
  - injection H as <-. lia.
  - destruct x as [| |e]; try (by apply IH).
    destruct (DApp.int_of (DApp.amount e)) as [z|]; [|discriminate].
    destruct (DApp.abs_total arr) as [t0|]; [|discriminate].
    injection H as <-. destruct (IH t0 eq_refl). simpl. lia.
Qed.

Lemma sum_from_int (arr : list DApp.slot) (c t : Z) :
  DApp.abs_total arr = Some t -> Z.abs c + t < 2 ^ 53 ->
  DApp.sum_from (Double.Finite (inject_Z c)) arr =
  Double.Finite (inject_Z (c + DApp.zsum arr)).
Proof.
  revert c t. induction arr as [|x arr IH]; intros c t H Hb;
    cbn [DApp.sum_from DApp.abs_total DApp.zsum] in *.
  - do 2 f_equal. lia.
  - destruct x as [| |e]; try (by eapply IH).
    destruct (DApp.int_of (DApp.amount e)) as [z|] eqn:Hz; [|discriminate].
    destruct (DApp.abs_total arr) as [t0|] eqn:Ht0; [|discriminate].
    injection H as <-. apply int_of_Some in Hz. rewrite Hz.
    destruct (abs_total_bound arr t0 Ht0) as [Ht0pos _].
    rewrite add_int by lia.
    rewrite (IH (c + z) t0 eq_refl) by lia.
    cbn [default option_map from_option]. do 2 f_equal. unfold default. simpl. lia.
Qed.

Lemma abs_total_app (l1 l2 : list DApp.slot) :
  DApp.abs_total (l1 ++ l2) =
  match DApp.abs_total l1, DApp.abs_total l2 with
  | Some a, Some b => Some (a + b)
  | _, _ => None
  end.
Proof.
  induction l1 as [|x l1 IH]; simpl.
  - by destruct (DApp.abs_total l2).
  - destruct x as [| |e]; try exact IH.
    rewrite IH. destruct (DApp.int_of (DApp.amount e)); [|reflexivity].
    destruct (DApp.abs_total l1), (DApp.abs_total l2); try reflexivity.
    f_equal. lia.
Qed.

Lemma zsum_app (l1 l2 : list DApp.slot) :
  DApp.zsum (l1 ++ l2) = DApp.zsum l1 + DApp.zsum l2.
Proof.
  induction l1 as [|x l1 IH]; simpl; [reflexivity|].
  destruct x; rewrite IH; lia.
Qed.

Lemma abs_total_holes (n : nat) :
  DApp.abs_total (replicate n DApp.Hole) = Some 0 /\
  DApp.zsum (replicate n DApp.Hole) = 0.
Proof. induction n; simpl; auto. Qed.

Lemma abs_total_spread (arr : list DApp.slot) :
  DApp.abs_total (DApp.spread arr) = DApp.abs_total arr /\
  DApp.zsum (DApp.spread arr) = DApp.zsum arr.
Proof.
  induction arr as [|x arr [IH1 IH2]]; simpl; [done|].
  destruct x; simpl; rewrite ?IH1, ?IH2; done.
Qed.

Lemma old_amount_int (arr : list DApp.slot) (i : nat) (t : Z) :
  DApp.abs_total arr = Some t ->
  exists zo, DApp.int_of (DApp.old_amount arr i) = Some zo /\
             Z.abs (DApp.zsum arr - zo) <= t.
Proof.
  revert i t. induction arr as [|x arr IH]; intros i t H.
  - exists 0. injection H as <-. split; [by destruct i | simpl; lia].
  - simpl in H. destruct x as [| |e].
    + destruct i as [|i]; [|exact (IH i t H)].
      exists 0. split; [reflexivity|]. destruct (abs_total_bound arr t H). simpl. lia.
    + destruct i as [|i]; [|exact (IH i t H)].
      exists 0. split; [reflexivity|]. destruct (abs_total_bound arr t H). simpl. lia.
    + destruct (DApp.int_of (DApp.amount e)) as [z|] eqn:Hz; [|discriminate].
      destruct (DApp.abs_total arr) as [t0|] eqn:Ht0; [|discriminate].
      injection H as <-. destruct (abs_total_bound arr t0 Ht0).
      destruct i as [|i].
      * exists z. split; [exact Hz|]. simpl. rewrite Hz. simpl. lia.
      * destruct (IH i t0 eq_refl) as (zo & Hzo & Hb).
        exists zo. split; [exact Hzo|]. simpl. rewrite Hz. simpl. lia.
Qed.

Lemma zsum_insert (arr : list DApp.slot) (i : nat) (e' : DApp.Entry) (t q : Z) :
  (i < length arr)%nat ->
  DApp.abs_total arr = Some t ->
  DApp.int_of (DApp.amount e') = Some q ->
  DApp.zsum (<[i := DApp.Elem e']> arr) =
  DApp.zsum arr - default 0 (DApp.int_of (DApp.old_amount arr i)) + q.
Proof.
  revert i t. induction arr as [|x arr IH]; intros i t Hi H Hq; simpl in Hi; [lia|].
  destruct i as [|i].
  - simpl. rewrite Hq. unfold DApp.old_amount, DApp.get. simpl.
    destruct x as [| |e]; simpl; lia.
  - change (DApp.old_amount (x :: arr) (S i)) with (DApp.old_amount arr i).
    simpl in H. destruct x as [| |e]; simpl.
    + eapply IH; eauto; lia.
    + eapply IH; eauto; lia.
    + destruct (DApp.int_of (DApp.amount e)) as [z|]; [|discriminate].
      destruct (DApp.abs_total arr) as [t0|] eqn:Ht0; [|discriminate].
      rewrite (IH i t0) by (lia || done). simpl. lia.
Qed.

Lemma abs_total_insert_int (arr : list DApp.slot) (i : nat) (e' : DApp.Entry) (t' : Z) :
  (i < length arr)%nat ->
  DApp.abs_total (<[i := DApp.Elem e']> arr) = Some t' ->
  exists q, DApp.int_of (DApp.amount e') = Some q.
Proof.
  revert i t'. induction arr as [|x arr IH]; intros i t' Hi H; simpl in Hi; [lia|].
  destruct i as [|i]; simpl in H.
  - destruct (DApp.int_of (DApp.amount e')); [eauto | discriminate].
  - destruct x as [| |e]; try (eapply IH; eauto; lia).
    destruct (DApp.int_of (DApp.amount e)); [|discriminate].
    destruct (DApp.abs_total (<[i:=DApp.Elem e']> arr)) eqn:H'; [|discriminate].
    eapply IH; eauto; lia.
Qed.

Lemma zsum_array_set (arr : list DApp.slot) (i : nat) (e' : DApp.Entry) (t t' : Z) :
  DApp.abs_total arr = Some t ->
  DApp.abs_total (DApp.array_set i (DApp.Elem e') arr) = Some t' ->
  exists q, DApp.int_of (DApp.amount e') = Some q /\
            DApp.zsum (DApp.array_set i (DApp.Elem e') arr) =
            DApp.zsum arr - default 0 (DApp.int_of (DApp.old_amount arr i)) + q.
Proof.
  intros H H'. unfold DApp.array_set in *.
  destruct (Nat.ltb_spec i (length arr)) as [Hi|Hi].
  - destruct (abs_total_insert_int arr i e' t' Hi H') as [q Hq].
    exists q. split; [exact Hq|]. by eapply zsum_insert.
  - rewrite !abs_total_app in H'. rewrite H in H'.
    destruct (abs_total_holes (i - length arr)) as [Hh Hz]. rewrite Hh in H'.
    simpl in H'. destruct (DApp.int_of (DApp.amount e')) as [q|] eqn:Hq; [|discriminate].
    exists q. split; [reflexivity|].
    rewrite !zsum_app, Hz. simpl. rewrite Hq.
    unfold DApp.old_amount, DApp.get. rewrite lookup_ge_None_2 by lia. simpl. lia.
Qed.

Lemma zsum_filter_past (arr : list DApp.slot) (k idx : nat) :
  (idx < k)%nat -> DApp.zsum (DApp.filter_index_from k idx arr) = DApp.zsum arr.
Proof.
  revert k. induction arr as [|x arr IH]; intros k Hk; simpl; [reflexivity|].
  destruct x as [| |e]; simpl.
  - apply IH; lia.
  - destruct (Nat.eqb_spec k idx); [lia|]. simpl. apply IH; lia.
  - destruct (Nat.eqb_spec k idx); [lia|]. simpl. rewrite IH by lia. reflexivity.
Qed.

Lemma zsum_filter (arr : list DApp.slot) (k i : nat) (e : DApp.Entry) :
  DApp.get arr i = Some e ->
  DApp.zsum (DApp.filter_index_from k (k + i) arr) =
  DApp.zsum arr - default 0 (DApp.int_of (DApp.amount e)).
Proof.
  revert k i. induction arr as [|x arr IH]; intros k i Hg.
  - by destruct i.
  - destruct i as [|i].
    + unfold DApp.get in Hg. simpl in Hg. destruct x as [| |e0]; try discriminate.
      injection Hg as ->. simpl.
      replace (k + 0)%nat with k by lia. rewrite Nat.eqb_refl.
      rewrite zsum_filter_past by lia. lia.
    + change (DApp.get (x :: arr) (S i)) with (DApp.get arr i) in Hg.
      pose proof (IH (S k) i Hg) as IHk.
      replace (k + S i)%nat with (S k + i)%nat by lia. simpl in *.
      destruct x as [| |e0]; simpl.
      * exact IHk.
      * destruct (Nat.eqb_spec k (S (k + i))); [lia|]. exact IHk.
      * destruct (Nat.eqb_spec k (S (k + i))); [lia|]. simpl. rewrite IHk. lia.
Qed.

Lemma get_int (arr : list DApp.slot) (i : nat) (e : DApp.Entry) (t : Z) :
  DApp.abs_total arr = Some t -> DApp.get arr i = Some e ->
  exists a, DApp.int_of (DApp.amount e) = Some a.
Proof.
  intros H Hg. destruct (old_amount_int arr i t H) as (zo & Hzo & _).
  unfold DApp.old_amount in Hzo. rewrite Hg in Hzo. eauto.
Qed.

Lemma strict_eq_int (a b : Z) :
  Double.strict_eq (Double.Finite (inject_Z a)) (Double.Finite (inject_Z b)) = true
  <-> a = b.
Proof.
  unfold Double.strict_eq. rewrite Qeq_bool_iff. unfold Qeq, inject_Z. simpl. lia.
Qed.

Lemma ledger_invariant_safe (b p : Z) (s : DApp.State) :
  DApp.safe b s -> DApp.int_of (DApp.progress s) = Some p ->
  (DApp.ledger_invariant (Double.Finite (inject_Z b)) s <->
   DApp.progress s = Double.Finite (inject_Z (b + DApp.zsum (DApp.entries s)))).
Proof.
  intros (t & Ht & Hb) Hp. apply int_of_Some in Hp.
  destruct (abs_total_bound _ _ Ht) as [Ht0 Hz].
  unfold DApp.ledger_invariant, DApp.sum_amounts.
  change (Double.Finite 0) with (Double.Finite (inject_Z 0)).
  rewrite (sum_from_int _ 0 t Ht) by lia.
  rewrite add_int by (simpl; lia). simpl (0 + _).
  rewrite Hp, strict_eq_int. split; [by intros -> | by intros [= ->]].
Qed.

(** ** The ledger invariant on integers that stay safe *)

Lemma safe_inv (b : Z) (s : DApp.State) :
  DApp.safe b s ->
  exists t, DApp.abs_total (DApp.entries s) = Some t /\ Z.abs b + t < 2 ^ 53 /\
            0 <= t /\ Z.abs (DApp.zsum (DApp.entries s)) <= t.
Proof.
  intros (t & Ht & Hb). exists t.
  destruct (abs_total_bound _ _ Ht). auto.
Qed.

Lemma DApp_onPointerMove_ledger (x : Double.double) (s : DApp.State) :
  DApp.entries (DApp.onPointerMove x s) = DApp.entries s /\
  DApp.progress (DApp.onPointerMove x s) = DApp.progress s.
Proof.
  unfold DApp.onPointerMove.
  destruct (DApp.pointerActive s); simpl; [|done].
  by destruct (Double.strict_eq _ _).
Qed.

Lemma addEntry_safe_step (b : Z) (a : DApp.value) (l : option string) (now : string)
    (s : DApp.State) :
  DApp.progress s = Double.Finite (inject_Z (b + DApp.zsum (DApp.entries s))) ->
  DApp.safe b s -> DApp.safe b (DApp.addEntry a l now s) ->
  DApp.progress (DApp.addEntry a l now s) =
  Double.Finite (inject_Z (b + DApp.zsum (DApp.entries (DApp.addEntry a l now s)))).
Proof.
  intros Hp Hs Hs'. unfold DApp.addEntry in *.
  destruct (Double.isNaN (DApp.ToNumber a) || Double.is_zero (DApp.ToNumber a))%bool;
    [exact Hp|].
  destruct (safe_inv _ _ Hs) as (t & Ht & Hb & Ht0 & Hz).
  destruct (safe_inv _ _ Hs') as (t' & Ht' & Hb' & Ht0' & Hz').
  cbn [DApp.setProgress DApp.setEntries DApp.entries DApp.progress] in *.
  cbn [DApp.abs_total DApp.zsum DApp.amount] in *.
  destruct (DApp.int_of (DApp.ToNumber a)) as [z|] eqn:Hn; [|discriminate].
  apply int_of_Some in Hn. rewrite Hn, Hp.
  destruct (abs_total_spread (DApp.entries s)) as [Hsp1 Hsp2].
  rewrite Hsp2 in *. cbn [default from_option] in *. unfold default in *. simpl in Hz'.
  rewrite add_int by lia. do 2 f_equal. unfold id. lia.
Qed.

Lemma saveEdit_safe_step (b : Z) (s : DApp.State) :
  DApp.progress s = Double.Finite (inject_Z (b + DApp.zsum (DApp.entries s))) ->
  DApp.safe b s -> DApp.safe b (DApp.saveEdit s) ->
  DApp.progress (DApp.saveEdit s) =
  Double.Finite (inject_Z (b + DApp.zsum (DApp.entries (DApp.saveEdit s)))).
Proof.
  intros Hp Hs Hs'. unfold DApp.saveEdit in *.
  destruct (DApp.editIdx s) as [i|]; [|exact Hp].
  destruct (Double.isNaN (Double.StringToNumber (DApp.editAmount s))); [exact Hp|].
  destruct (safe_inv _ _ Hs) as (t & Ht & Hb & Ht0 & Hz).
  destruct (safe_inv _ _ Hs') as (t' & Ht' & Hb' & Ht0' & Hz').
  cbn [DApp.cancelEdit DApp.setEditName DApp.setEditAmount DApp.setEditIdx
       DApp.setProgress DApp.setEntries DApp.entries DApp.progress] in *.
  destruct (zsum_array_set _ _ _ _ _ Ht Ht') as (q & Hq & Hsum).
  destruct (old_amount_int (DApp.entries s) i t Ht) as (zo & Hzo & Hbo).
  rewrite Hsum in *. rewrite Hzo in *. cbn [DApp.amount] in Hq.
  apply int_of_Some in Hq, Hzo. rewrite Hq, Hzo, Hp.
  unfold default in *. simpl in Hz'.
  unfold id in *. rewrite sub_int by lia. rewrite add_int by lia. do 2 f_equal. lia.
Qed.

Lemma deleteEntry_safe_step (b : Z) (idx : nat) (s : DApp.State) :
  DApp.progress s = Double.Finite (inject_Z (b + DApp.zsum (DApp.entries s))) ->
  DApp.safe b s -> DApp.safe b (DApp.deleteEntry idx s) ->
  DApp.progress (DApp.deleteEntry idx s) =
  Double.Finite (inject_Z (b + DApp.zsum (DApp.entries (DApp.deleteEntry idx s)))).
Proof.
  intros Hp Hs Hs'. unfold DApp.deleteEntry in *.
  destruct (DApp.get (DApp.entries s) idx) as [ent|] eqn:Hg; [|exact Hp].
  destruct (safe_inv _ _ Hs) as (t & Ht & Hb & Ht0 & Hz).
  destruct (safe_inv _ _ Hs') as (t' & Ht' & Hb' & Ht0' & Hz').
  cbn [DApp.setProgress DApp.setEntries DApp.entries DApp.progress] in *.
  assert (DApp.entries (if decide (DApp.editIdx s = Some idx)
                        then DApp.cancelEdit s else s) = DApp.entries s) as He
    by (by destruct (decide _)).
  assert (DApp.progress (if decide (DApp.editIdx s = Some idx)
                         then DApp.cancelEdit s else s) = DApp.progress s) as Hpr
    by (by destruct (decide _)).
  rewrite He in *. rewrite Hpr.
  destruct (get_int _ _ _ _ Ht Hg) as [a Ha].
  pose proof (zsum_filter (DApp.entries s) 0 idx ent Hg) as Hsum.
  change (DApp.filter_index_from 0 (0 + idx)) with (DApp.filter_index_ne idx) in Hsum.
  rewrite Hsum in *. rewrite Ha in *. apply int_of_Some in Ha. rewrite Ha, Hp.
  unfold default in *. simpl in Hz'.
  unfold id in *. rewrite sub_int by lia. do 2 f_equal. lia.
Qed.

Lemma step_progress_safe (ev : DApp.event) (b : Z) (s : DApp.State) :
  DApp.progress s = Double.Finite (inject_Z (b + DApp.zsum (DApp.entries s))) ->
  DApp.safe b s ->
  DApp.safe (DApp.baseline_step b ev) (DApp.step s ev) ->
  DApp.progress (DApp.step s ev) =
  Double.Finite (inject_Z (DApp.baseline_step b ev
                           + DApp.zsum (DApp.entries (DApp.step s ev)))).
Proof.
  intros Hinv Hs Hs'.
  destruct ev as [a l now | now | idx | txt | txt | | | idx | | | txt
                 | | | | | x | x | | | | | ];
    unfold DApp.baseline_step in *; cbn [DApp.resets DApp.step] in *; try exact Hinv.
  - by apply addEntry_safe_step.
  - unfold DApp.commitKnob in *.
    cbn [DApp.setKnobValue DApp.entries DApp.progress] in *.
    apply addEntry_safe_step; [exact Hinv | exact Hs |].
    destruct Hs' as (t & H2 & H3). by exists t.
  - unfold DApp.startEdit in *. by destruct (DApp.get (DApp.entries s) idx).
  - by apply saveEdit_safe_step.
  - by apply deleteEntry_safe_step.
  - reflexivity.
  - reflexivity.
  - destruct (DApp_onPointerMove_ledger x s) as [-> ->]. exact Hinv.
Qed.

Lemma run_progress_safe (evs : list DApp.event) :
  forall (b : Z) (s : DApp.State),
    DApp.progress s = Double.Finite (inject_Z (b + DApp.zsum (DApp.entries s))) ->
    DApp.safe_run b evs s ->
    let b' := fold_left DApp.baseline_step evs b in
    DApp.safe b' (DApp.run evs s) /\
    DApp.progress (DApp.run evs s) =
    Double.Finite (inject_Z (b' + DApp.zsum (DApp.entries (DApp.run evs s)))).
Proof.
  induction evs as [|ev evs IH]; intros b s Hinv Hsafe.
  - destruct Hsafe as [Hs _]. split; [exact Hs | exact Hinv].
  - cbn [DApp.safe_run] in Hsafe. destruct Hsafe as [Hs Hrest].
    cbn [DApp.run fold_left]. apply IH; [|exact Hrest].
    apply step_progress_safe; try done.
    destruct evs; cbn [DApp.safe_run] in Hrest; tauto.
Qed.

(** C1, amended.  Along every sequence of events -- [addEntry],
    [saveEdit], [deleteEntry] and every other handler -- a state in which
    [progress] equals the baseline plus the sum of the amounts is followed
    only by such states, provided that the progress is an integer to begin
    with and that in every state of the run the amounts in the ledger are
    integers whose absolute values, with that of the baseline, add up to
    less than [2^53].  The baseline is the one the run started with until
    [clearAllEntries] or [Reset] makes it [0]. *)
Theorem ledger_invariant_on_safe_integers (evs : list DApp.event) (baseline p : Z)
    (s : DApp.State) :
  DApp.int_of (DApp.progress s) = Some p ->
  DApp.ledger_invariant (Double.Finite (inject_Z baseline)) s ->
  DApp.safe_run baseline evs s ->
  DApp.ledger_invariant
    (Double.Finite (inject_Z (fold_left DApp.baseline_step evs baseline)))
    (DApp.run evs s).
Proof.
  intros Hp Hinv Hsafe.
  assert (DApp.safe baseline s) as Hs by (destruct evs; cbn in Hsafe; tauto).
  apply (ledger_invariant_safe _ _ _ Hs Hp) in Hinv.
  destruct (run_progress_safe evs baseline s Hinv Hsafe) as [Hs' Hp'].
  cbv zeta in *.
  eapply ledger_invariant_safe; [exact Hs' | | exact Hp'].
  rewrite Hp'. reflexivity.
Qed.

(** The reset ledger, [addEntry(1000)] twice, then the two rows edited to
    0.1 and 0.2: the progress is 0.30000000000002275 and the sum of the
    amounts 0.30000000000000004. *)
Lemma ledger_invariant_broken_by_fractions :
  let s0 := DApp.resetAll DApp.default_state in
  let s := DApp.run [DApp.EvAddEntry (DApp.Vnumber (Double.Finite 1000)) None "d1";
                     DApp.EvAddEntry (DApp.Vnumber (Double.Finite 1000)) None "d2";
                     DApp.EvStartEdit 0; DApp.EvEditAmount "0.1"; DApp.EvSaveEdit;
                     DApp.EvStartEdit 1; DApp.EvEditAmount "0.2"; DApp.EvSaveEdit] s0 in
  DApp.ledger_invariant (Double.Finite 0) s0 /\
  Double.NumberToString (DApp.progress s) = "0.30000000000002275" /\
  Double.NumberToString (DApp.sum_amounts (DApp.entries s)) = "0.30000000000000004" /\
  ~ DApp.ledger_invariant (Double.Finite 0) s.
Proof.
  repeat apply conj; try (vm_compute; reflexivity).
  unfold DApp.ledger_invariant. vm_compute. discriminate.
Qed.

Lemma ledger_invariant_on_safe_integers_witness :
  DApp.ledger_invariant (Double.Finite (inject_Z 25000))
    (DApp.run [DApp.EvAddEntry (DApp.Vstring "2e3") None "d1";
               DApp.EvStartEdit 0; DApp.EvEditAmount "500"; DApp.EvEditName "rent";
               DApp.EvSaveEdit; DApp.EvCommitKnob "d2"; DApp.EvDeleteEntry 1]
       DApp.default_state).
Proof.
  apply (ledger_invariant_on_safe_integers
           [DApp.EvAddEntry (DApp.Vstring "2e3") None "d1";
            DApp.EvStartEdit 0; DApp.EvEditAmount "500"; DApp.EvEditName "rent";
            DApp.EvSaveEdit; DApp.EvCommitKnob "d2"; DApp.EvDeleteEntry 1]
           25000 25000 DApp.default_state).
  - reflexivity.
  - vm_compute. reflexivity.
  - cbn [DApp.safe_run].
    repeat (split; [eexists; (split; [vm_compute; reflexivity | vm_compute; reflexivity])|]).
    exact I.
Defined.

(** ** [addEntry] *)


Lemma DApp_spread_no_hole (arr : list DApp.slot) :
  DApp.Hole ∉ arr -> DApp.spread arr = arr.
Proof.
  induction arr as [|x arr IH]; intros H; [reflexivity|].
  apply not_elem_of_cons in H as [Hx Harr]. simpl. rewrite (IH Harr).
  destruct x; congruence.
Qed.





(** ** The stored target *)

(** C3, amended.  When [Number] of the text stored under the target key is
    [NaN], as for ["abc"], loading does not fail and the target is not 0:
    [App.jsx] starts with the target [NaN], [src/App.jsx] with the default
    100000. *)
Theorem target_of_NaN_text (JSON_parse : string -> option (list DApp.slot))
    (ls : gmap string string) (raw : string) :
  ls !! STORAGE_KEYS.TARGET = Some raw ->
  Double.StringToNumber raw = Double.NotANumber ->
  DApp.targetSum (DApp.App_init JSON_parse ls) = Double.NotANumber /\
  DApp.Src_targetSum_init ls = Double.Finite (inject_Z 100000).
Proof.
  intros Hraw Hnan. split.
  - cbn [DApp.App_init DApp.targetSum]. unfold DApp.targetSum_init. rewrite Hraw.
    destruct raw as [|c raw]; [discriminate Hnan | exact Hnan].
  - unfold DApp.Src_targetSum_init, DApp.Src_number_init. rewrite Hraw, Hnan.
    reflexivity.
Qed.

Lemma target_of_NaN_text_witness :
  DApp.targetSum (DApp.App_init (fun _ => None) {[STORAGE_KEYS.TARGET := "12px"]})
    = Double.NotANumber /\
  DApp.Src_targetSum_init {[STORAGE_KEYS.TARGET := "12px"]}
    = Double.Finite (inject_Z 100000).
Proof.
  apply (target_of_NaN_text (fun _ => None) {[STORAGE_KEYS.TARGET := "12px"]} "12px");
    reflexivity.
Defined.

Lemma target_abc_is_not_zero :
  DApp.targetSum (DApp.App_init (fun _ => None) {[STORAGE_KEYS.TARGET := "abc"]})
    = Double.NotANumber /\
  DApp.targetSum (DApp.App_init (fun _ => None) {[STORAGE_KEYS.TARGET := "abc"]})
    <> Double.Finite 0 /\
  DApp.Src_targetSum_init {[STORAGE_KEYS.TARGET := "abc"]} = Double.Finite (inject_Z 100000) /\
  DApp.Src_targetSum_init {[STORAGE_KEYS.TARGET := "abc"]} <> Double.Finite 0.
Proof. repeat apply conj; (vm_compute; reflexivity) || discriminate. Qed.

(** Texts with an exponent, a fraction or a radix prefix are numbers: they
    load as the target they denote. *)
Example numeric_targets_load :
  DApp.targetSum_init {[STORAGE_KEYS.TARGET := "1e3"]} = Double.Finite (inject_Z 1000) /\
  DApp.targetSum_init {[STORAGE_KEYS.TARGET := "600.25"]} = Double.Finite (2401 # 4) /\
  DApp.targetSum_init {[STORAGE_KEYS.TARGET := "0x10"]} = Double.Finite (inject_Z 16) /\
  DApp.targetSum_init {[STORAGE_KEYS.TARGET := " 0 "]} = Double.Finite 0.
Proof. repeat apply conj; vm_compute; reflexivity. Qed.

(** ** The clamp law *)

Lemma Double_le_refl (a : Double.double) : Double.isNaN a = false -> Double.le a a = true.
Proof.
  destruct a as [x| | |]; simpl; try done. intros _. apply Qle_bool_iff, Qle_refl.
Qed.

Lemma Double_le_total (a b : Double.double) :
  Double.isNaN a = false -> Double.isNaN b = false ->
  Double.le a b = false -> Double.le b a = true.
Proof.
  destruct a as [x| | |], b as [y| | |]; simpl; try done. intros _ _ H.
  apply Qle_bool_iff. apply Qlt_le_weak, Qnot_le_lt. intros Hle.
  apply Qle_bool_iff in Hle. congruence.
Qed.

Lemma Double_le_trans (a b c : Double.double) :
  Double.le a b = true -> Double.le b c = true -> Double.le a c = true.
Proof.
  destruct a as [x| | |], b as [y| | |], c as [z| | |]; simpl; try done.
  rewrite !Qle_bool_iff. apply Qle_trans.
Qed.

Lemma Double_le_not_NaN (a b : Double.double) :
  Double.le a b = true -> Double.isNaN a = false /\ Double.isNaN b = false.
Proof. destruct a, b; simpl; done. Qed.

Lemma Math_min_cases (a b : Double.double) :
  Double.isNaN a = false -> Double.isNaN b = false ->
  Double.Math_min a b = if Double.le a b then a else b.
Proof. destruct a, b; simpl; done. Qed.

Lemma Math_max_cases (a b : Double.double) :
  Double.isNaN a = false -> Double.isNaN b = false ->
  Double.Math_max a b = if Double.le a b then b else a.
Proof. destruct a, b; simpl; done. Qed.

Lemma Math_min_NaN (a : Double.double) : Double.Math_min a Double.NotANumber = Double.NotANumber.
Proof. by destruct a. Qed.

Lemma Math_max_NaN (a : Double.double) : Double.Math_max a Double.NotANumber = Double.NotANumber.
Proof. by destruct a. Qed.

Lemma clamp_in_range (v hi : Double.double) :
  Double.isNaN v = false -> Double.le (Double.Finite 0) hi = true ->
  Double.le (Double.Finite 0) (DApp.clamp v (Double.Finite 0) hi) = true /\
  Double.le (DApp.clamp v (Double.Finite 0) hi) hi = true.
Proof.
  intros Hv Hhi. destruct (Double_le_not_NaN _ _ Hhi) as [_ Hn].
  unfold DApp.clamp. rewrite (Math_min_cases hi v Hn Hv).
  destruct (Double.le hi v) eqn:E1.
  - rewrite (Math_max_cases (Double.Finite 0) hi eq_refl Hn), Hhi. split; [exact Hhi | by apply Double_le_refl].
  - rewrite (Math_max_cases (Double.Finite 0) v eq_refl Hv).
    destruct (Double.le (Double.Finite 0) v) eqn:E2.
    + split; [exact E2 | by apply Double_le_total].
    + split; [reflexivity | exact Hhi].
Qed.

Lemma clamp_NaN (a hi : Double.double) :
  DApp.clamp Double.NotANumber a hi = Double.NotANumber.
Proof. unfold DApp.clamp. rewrite Math_min_NaN. apply Math_max_NaN. Qed.

Lemma round_pos_not_NaN (n d : positive) : Double.isNaN (Double.round_pos n d) = false.
Proof. unfold Double.round_pos. cbv zeta. by destruct (_ || _)%bool. Qed.

Lemma round_not_NaN (q : Q) : Double.isNaN (Double.round q) = false.
Proof.
  unfold Double.round. destruct (Qnum q) as [|n|n]; [reflexivity | |].
  - apply round_pos_not_NaN.
  - pose proof (round_pos_not_NaN n (Qden q)) as H.
    by destruct (Double.round_pos n (Qden q)).
Qed.

Lemma add_finite_not_NaN (x : Q) (b : Double.double) :
  Double.isNaN b = false -> Double.isNaN (Double.add (Double.Finite x) b) = false.
Proof. destruct b as [y| | |]; simpl; try done. intros _. apply round_not_NaN. Qed.

Lemma mul_positive_not_NaN (a : Double.double) (p : positive) :
  Double.isNaN a = false ->
  Double.isNaN (Double.mul a (Double.Finite (inject_Z (Zpos p)))) = false.
Proof. destruct a as [x| | |]; simpl; try done. intros _. apply round_not_NaN. Qed.

Lemma knobMax_range (s : DApp.State) :
  Double.isNaN (DApp.targetSum s) = false ->
  Double.le (Double.Finite 0) (DApp.knobMax s) = true.
Proof.
  intros Ht. unfold DApp.knobMax.
  pose proof (mul_positive_not_NaN (DApp.targetSum s) 2 Ht) as Hm.
  change (inject_Z 2) with (2 : Q) in Hm.
  rewrite (Math_max_cases (Double.Finite 1000) _ eq_refl Hm).
  destruct (Double.le (Double.Finite 1000) _) eqn:E; [|reflexivity].
  eapply Double_le_trans; [|exact E]. reflexivity.
Qed.

Lemma dragSteps_not_NaN (x r : Q) (s : DApp.State) :
  default (Double.Finite 0) (DApp.lastAngle s) = Double.Finite r ->
  Double.isNaN (DApp.dragSteps (Double.Finite x) s) = false.
Proof.
  intros Hr. unfold DApp.dragSteps. rewrite Hr. unfold Double.sub.
  cbn [Double.neg Double.add].
  pose proof (round_not_NaN (Qplus x (Qopp r))) as H1.
  destruct (Double.round (Qplus x (Qopp r))) as [y| | |]; try done.
  cbn [Double.div_pos].
  pose proof (round_not_NaN (Qmult y (1 # DApp.STEP_SIZE))) as H2.
  by destruct (Double.round (Qmult y (1 # DApp.STEP_SIZE))).
Qed.

Lemma adjustKnob_in_range (delta : Z) (s : DApp.State) (v : Q) :
  Double.isNaN (DApp.targetSum s) = false ->
  DApp.knobValue s = Double.Finite v ->
  DApp.knob_in_range (DApp.adjustKnob delta s).
Proof.
  intros Ht Hv. unfold DApp.knob_in_range, DApp.adjustKnob.
  cbn [DApp.knobValue DApp.setKnobValue].
  change (DApp.knobMax (DApp.setKnobValue _ s)) with (DApp.knobMax s).
  rewrite Hv. apply clamp_in_range; [|by apply knobMax_range].
  by apply add_finite_not_NaN.
Qed.

Lemma adjustKnob_NaN (delta : Z) (s : DApp.State) :
  DApp.knobValue s = Double.NotANumber ->
  DApp.knobValue (DApp.adjustKnob delta s) = Double.NotANumber.
Proof.
  intros Hv. unfold DApp.adjustKnob. cbn [DApp.knobValue DApp.setKnobValue].
  rewrite Hv. apply clamp_NaN.
Qed.

(** C4, amended.  For every non-negative target, as long as the pending
    value is a finite number, it lies in [[0, max(1000, 2 * target)]] after
    any of the four buttons and after any pointer move of an active drag
    that adjusts it (the pointer positions being finite numbers).  A
    pending value that is [NaN] stays [NaN] under every button and every
    pointer move, whatever the target is. *)
Theorem knob_clamp_law_for_numbers (s : DApp.State) :
  (Double.le (Double.Finite 0) (DApp.targetSum s) = true ->
   forall v : Q, DApp.knobValue s = Double.Finite v ->
     DApp.knob_in_range (DApp.minus10k s) /\ DApp.knob_in_range (DApp.minus1k s) /\
     DApp.knob_in_range (DApp.plus1k s) /\ DApp.knob_in_range (DApp.plus10k s) /\
     forall x r : Q,
       DApp.pointerActive s = true ->
       default (Double.Finite 0) (DApp.lastAngle s) = Double.Finite r ->
       Double.strict_eq (DApp.dragSteps (Double.Finite x) s) (Double.Finite 0) = false ->
       DApp.knob_in_range (DApp.onPointerMove (Double.Finite x) s)) /\
  (DApp.knobValue s = Double.NotANumber ->
   DApp.knobValue (DApp.minus10k s) = Double.NotANumber /\
   DApp.knobValue (DApp.minus1k s) = Double.NotANumber /\
   DApp.knobValue (DApp.plus1k s) = Double.NotANumber /\
   DApp.knobValue (DApp.plus10k s) = Double.NotANumber /\
   forall clientX, DApp.knobValue (DApp.onPointerMove clientX s) = Double.NotANumber).
Proof.
  split.
  - intros Ht v Hv. apply Double_le_not_NaN in Ht as [_ Ht].
    repeat split; try (eapply adjustKnob_in_range; eassumption).
    + unfold DApp.onPointerMove. rewrite H, H1. simpl. rewrite Hv.
      apply clamp_in_range; [|by apply knobMax_range].
      apply add_finite_not_NaN.
      pose proof (dragSteps_not_NaN x r s H0) as Hs.
      change (Double.Finite 1000) with (Double.Finite (inject_Z 1000)).
      by apply mul_positive_not_NaN.
    + unfold DApp.onPointerMove. rewrite H, H1. simpl. rewrite Hv.
      change (DApp.knobMax (DApp.setLastAngle _ _)) with (DApp.knobMax s).
      apply clamp_in_range; [|by apply knobMax_range].
      apply add_finite_not_NaN.
      pose proof (dragSteps_not_NaN x r s H0) as Hs.
      change (Double.Finite 1000) with (Double.Finite (inject_Z 1000)).
      by apply mul_positive_not_NaN.
  - intros Hv. repeat split; try (by apply adjustKnob_NaN).
    intros clientX. unfold DApp.onPointerMove.
    destruct (negb (DApp.pointerActive s)); [exact Hv|].
    destruct (negb _); [|exact Hv].
    cbn [DApp.knobValue DApp.setKnobValue DApp.setLastAngle]. rewrite Hv. apply clamp_NaN.
Qed.

Lemma knob_clamp_law_for_numbers_witness :
  let s := DApp.changeTarget "912.13" DApp.default_state in
  DApp.knob_in_range (DApp.plus1k s) /\
  Double.NumberToString (DApp.knobValue (DApp.plus1k s)) = "1824.26" /\
  DApp.knob_in_range (DApp.onPointerMove (Double.Finite 125)
                        (DApp.onPointerDown (Double.Finite 100) s)).
Proof.
  intros s.
  destruct (knob_clamp_law_for_numbers s) as [H _].
  destruct (H eq_refl 1000%Q eq_refl) as (_ & _ & Hp & _ & _).
  destruct (knob_clamp_law_for_numbers (DApp.onPointerDown (Double.Finite 100) s)) as [H' _].
  destruct (H' eq_refl 1000%Q eq_refl) as (_ & _ & _ & _ & Hd).
  split; [exact Hp | split; [vm_compute; reflexivity|]].
  apply (Hd 125%Q 100%Q); vm_compute; reflexivity.
Defined.

(** The target loaded from ["abc"] is [NaN]; one press of [+1k] makes the
    pending value [NaN]; the target is then typed as 5000, and the next
    press leaves the pending value [NaN], outside [[0, 10000]]. *)
Lemma pending_NaN_is_not_in_range :
  let s0 := DApp.App_init (fun _ => None) {[STORAGE_KEYS.TARGET := "abc"]} in
  let s := DApp.run [DApp.EvPlus1k; DApp.EvChangeTarget "5000"; DApp.EvPlus1k] s0 in
  DApp.targetSum s = Double.Finite (inject_Z 5000) /\
  DApp.knobMax s = Double.Finite (inject_Z 10000) /\
  DApp.knobValue s = Double.NotANumber /\
  ~ DApp.knob_in_range s.
Proof.
  repeat apply conj; try (vm_compute; reflexivity).
  intros [H _]. vm_compute in H. discriminate.
Qed.

(** ** The slices of the chart *)

Lemma Qle_bool_inject_Z (a b : Z) : Qle_bool (inject_Z a) (inject_Z b) = (a <=? b).
Proof. unfold Qle_bool, inject_Z. simpl. by rewrite !Z.mul_1_r. Qed.

Lemma Math_max_int (a b : Z) :
  Double.Math_max (Double.Finite (inject_Z a)) (Double.Finite (inject_Z b)) =
  Double.Finite (inject_Z (Z.max a b)).
Proof.
  cbn [Double.Math_max Double.le]. rewrite Qle_bool_inject_Z.
  destruct (Z.leb_spec a b); do 2 f_equal; lia.
Qed.

Lemma Math_min_int (a b : Z) :
  Double.Math_min (Double.Finite (inject_Z a)) (Double.Finite (inject_Z b)) =
  Double.Finite (inject_Z (Z.min a b)).
Proof.
  cbn [Double.Math_min Double.le]. rewrite Qle_bool_inject_Z.
  destruct (Z.leb_spec a b); do 2 f_equal; lia.
Qed.

Lemma mul_int (a b : Z) :
  Z.abs (a * b) < 2 ^ 53 ->
  Double.mul (Double.Finite (inject_Z a)) (Double.Finite (inject_Z b)) =
  Double.Finite (inject_Z (a * b)).
Proof. intros H. cbn [Double.mul]. by apply round_int. Qed.

(** X2.  For a target and a progress that are integers, below [2^53] in
    absolute value together with their difference, the two slices of the
    chart add up to the target, the second slice is the remaining amount,
    it is never negative, and it is zero exactly when the progress has
    reached the target. *)
Theorem pieData_sums_to_integer_target (s : DApp.State) (t p : Z) :
  DApp.targetSum s = Double.Finite (inject_Z t) ->
  DApp.progress s = Double.Finite (inject_Z p) ->
  Z.abs t < 2 ^ 53 -> Z.abs (t - p) < 2 ^ 53 ->
  exists a b, DApp.pieData s = (Double.Finite (inject_Z a), Double.Finite (inject_Z b)) /\
              Double.add (Double.Finite (inject_Z a)) (Double.Finite (inject_Z b))
                = Double.Finite (inject_Z t) /\
              0 <= b /\ DApp.remaining s = Double.Finite (inject_Z b) /\
              (b = 0 <-> t <= p) /\ (p <= t -> a = p).
Proof.
  intros Ht Hp Hbt Hbd. unfold DApp.pieData, DApp.remaining. rewrite Ht, Hp.
  rewrite sub_int by done.
  change (Double.Finite 0) with (Double.Finite (inject_Z 0)).
  rewrite Math_max_int, Math_min_int.
  exists (Z.min p t), (Z.max 0 (t - p)). split; [reflexivity|].
  split; [|repeat split; lia].
  rewrite add_int by lia. do 2 f_equal; lia.
Qed.

Lemma pieData_sums_to_integer_target_witness :
  exists a b, DApp.pieData DApp.default_state
                = (Double.Finite (inject_Z a), Double.Finite (inject_Z b)) /\
              Double.add (Double.Finite (inject_Z a)) (Double.Finite (inject_Z b))
                = Double.Finite (inject_Z 100000) /\
              0 <= b /\ DApp.remaining DApp.default_state = Double.Finite (inject_Z b) /\
              (b = 0 <-> 100000 <= 25000) /\ (25000 <= 100000 -> a = 25000).
Proof.
  apply (pieData_sums_to_integer_target DApp.default_state 100000 25000);
    [reflexivity | reflexivity | reflexivity | reflexivity].
Defined.

(** With fractions the slices need not add up: for the stored progress
    6854.42 and the stored target 26872.8 their sum is 26872.799999999996. *)
Example pieData_fractions :
  let s := DApp.App_init (fun _ => None)
             {[STORAGE_KEYS.TARGET := "26872.8"; STORAGE_KEYS.PROGRESS := "6854.42"]} in
  Double.NumberToString (Double.add (fst (DApp.pieData s)) (snd (DApp.pieData s)))
    = "26872.799999999996".
Proof. vm_compute. reflexivity. Qed.

(** ** The quick buttons *)

Lemma DApp_setKnobValue_same (s : DApp.State) (v : Double.double) :
  DApp.knobValue s = v -> DApp.setKnobValue (fun _ => v) s = s.
Proof. intros <-. by destruct s. Qed.

Lemma adjustKnob_int (delta : Z) (s : DApp.State) (v t : Z) :
  DApp.knobValue s = Double.Finite (inject_Z v) ->
  DApp.targetSum s = Double.Finite (inject_Z t) ->
  Z.abs (v + delta) < 2 ^ 53 -> Z.abs t < 2 ^ 52 ->
  DApp.adjustKnob delta s =
  DApp.setKnobValue
    (fun _ => Double.Finite (inject_Z (Z.max 0 (Z.min (Z.max 1000 (t * 2)) (v + delta))))) s.
Proof.
  intros Hv Ht Hb Hbt. unfold DApp.adjustKnob, DApp.knobMax, DApp.setKnobValue, DApp.clamp.
  rewrite Hv, Ht. rewrite add_int by done.
  change (Double.Finite 2) with (Double.Finite (inject_Z 2)).
  change (Double.Finite 1000) with (Double.Finite (inject_Z 1000)).
  change (Double.Finite 0) with (Double.Finite (inject_Z 0)).
  rewrite mul_int by lia. by rewrite Math_max_int, Math_min_int, Math_max_int.
Qed.

(** X3.  For a pending value and a target that are integers (the pending
    value and the delta together below [2^53], the target below [2^52] in
    absolute value), a quick button moves the pending value by its delta
    when the result stays in [[0, max(1000, 2 * target)]] and otherwise
    stops at the end of the range it would pass.  So a button and its
    opposite cancel as long as the first one did not stop at an end, and a
    button pressed at the end it points to changes nothing. *)
Theorem adjustKnob_exact_or_saturated_on_integers (delta : Z) (s : DApp.State) (v t : Z) :
  DApp.knobValue s = Double.Finite (inject_Z v) ->
  DApp.targetSum s = Double.Finite (inject_Z t) ->
  Z.abs v + Z.abs delta < 2 ^ 53 -> Z.abs t < 2 ^ 52 ->
  let top := Z.max 1000 (2 * t) in
  let knob s' := DApp.knobValue (DApp.adjustKnob delta s') in
  (0 <= v + delta <= top -> knob s = Double.Finite (inject_Z (v + delta))) /\
  (v + delta < 0 -> knob s = Double.Finite (inject_Z 0)) /\
  (top < v + delta -> knob s = Double.Finite (inject_Z top)) /\
  (0 <= v <= top -> 0 <= v + delta <= top ->
     DApp.adjustKnob (- delta) (DApp.adjustKnob delta s) = s) /\
  (v = top -> 0 <= delta -> DApp.adjustKnob delta s = s) /\
  (v = 0 -> delta <= 0 -> DApp.adjustKnob delta s = s).
Proof.
  intros Hv Ht Hb Hbt top knob. subst top knob. cbv beta.
  pose proof (adjustKnob_int delta s v t Hv Ht ltac:(lia) Hbt) as Hadj.
  split; [|split; [|split; [|split; [|split]]]]; intros.
  - rewrite Hadj. simpl. do 2 f_equal. lia.
  - rewrite Hadj. simpl. do 2 f_equal. lia.
  - rewrite Hadj. simpl. do 2 f_equal. lia.
  - rewrite Hadj.
    rewrite (adjustKnob_int (- delta) _ (v + delta) t); [| |exact Ht|lia|exact Hbt].
    + destruct s as [ts pr en kv pa la ss ei ea nm sc al]. simpl in Hv, Ht. subst kv ts.
      unfold DApp.setKnobValue. simpl. do 5 f_equal. lia.
    + simpl. do 2 f_equal. lia.
  - rewrite Hadj. apply DApp_setKnobValue_same. rewrite Hv. do 2 f_equal. lia.
  - rewrite Hadj. apply DApp_setKnobValue_same. rewrite Hv. do 2 f_equal. lia.
Qed.

Lemma adjustKnob_exact_or_saturated_on_integers_witness :
  DApp.knobValue (DApp.plus10k DApp.default_state) = Double.Finite (inject_Z 11000) /\
  DApp.knobValue (DApp.minus10k DApp.default_state) = Double.Finite (inject_Z 0) /\
  DApp.minus10k (DApp.plus10k DApp.default_state) = DApp.default_state.
Proof.
  destruct (adjustKnob_exact_or_saturated_on_integers 10000 DApp.default_state 1000 100000
              eq_refl eq_refl eq_refl eq_refl) as (Hin & _ & _ & Hinv & _ & _).
  destruct (adjustKnob_exact_or_saturated_on_integers (-10000) DApp.default_state 1000 100000
              eq_refl eq_refl eq_refl eq_refl) as (_ & Hlow & _ & _ & _ & _).
  split; [apply Hin; lia | split; [apply Hlow; lia | apply Hinv; lia]].
Defined.

(** With a fraction a button and its opposite need not cancel although
    neither stops at an end: the pending value stops at 1824.26 under the
    target 912.13, the target is then typed as 5000, and [+1k] then [-1k]
    leaves 1824.2600000000002. *)
Example adjustKnob_fractions :
  let s := DApp.run [DApp.EvChangeTarget "912.13"; DApp.EvPlus1k;
                     DApp.EvChangeTarget "5000"] DApp.default_state in
  Double.NumberToString (DApp.knobValue s) = "1824.26" /\
  Double.NumberToString (DApp.knobValue (DApp.plus1k s)) = "2824.26" /\
  Double.NumberToString (DApp.knobValue (DApp.minus1k (DApp.plus1k s)))
    = "1824.2600000000002".
Proof. repeat apply conj; vm_compute; reflexivity. Qed.

(** ** Alerts *)

Lemma DApp_step_alerts (ev : DApp.event) (s : DApp.State) :
  DApp.alerts (DApp.step s ev) = DApp.alerts s \/
  (ev = DApp.EvSaveEdit /\ (exists i, DApp.editIdx s = Some i) /\
   Double.StringToNumber (DApp.editAmount s) = Double.NotANumber /\
   DApp.step s ev = DApp.alert "Enter a valid numeric amount" s).
Proof.
  destruct ev as [a l now | now | idx | txt | txt | | | idx | | | txt
                 | | | | | x | x | | | | | ]; cbn [DApp.step]; try (by left).
  - left. unfold DApp.addEntry. by destruct (_ || _)%bool.
  - left. unfold DApp.commitKnob, DApp.addEntry. by destruct (_ || _)%bool.
  - left. unfold DApp.startEdit. by destruct (DApp.get (DApp.entries s) idx).
  - unfold DApp.saveEdit. destruct (DApp.editIdx s) as [i|] eqn:Hi; [|by left].
    destruct (Double.StringToNumber (DApp.editAmount s)) as [q| | |] eqn:Hq; simpl;
      try (by left).
    right. repeat split; eauto.
  - left. unfold DApp.deleteEntry. destruct (DApp.get (DApp.entries s) idx); [|done].
    by destruct (decide _).
  - left. unfold DApp.onPointerMove. destruct (DApp.pointerActive s); [|done]. simpl.
    by destruct (Double.strict_eq _ _).
Qed.

(** X13.  The only handler that alerts is [saveEdit], and only for a draft
    amount that [Number] turns into [NaN]; it then changes nothing else, so
    the edit session stays open with its drafts.  Along any sequence of
    events the alerts are the earlier ones with that one message on top, at
    most once per event. *)
Theorem alerts_only_from_saveEdit (evs : list DApp.event) (s : DApp.State) :
  (forall ev,
     DApp.alerts (DApp.step s ev) = DApp.alerts s \/
     (ev = DApp.EvSaveEdit /\ (exists i, DApp.editIdx s = Some i) /\
      Double.StringToNumber (DApp.editAmount s) = Double.NotANumber /\
      DApp.step s ev = DApp.alert "Enter a valid numeric amount" s)) /\
  exists n, (n <= length evs)%nat /\
            DApp.alerts (DApp.run evs s) =
              (replicate n "Enter a valid numeric amount" ++ DApp.alerts s)%list.
Proof.
  split; [intros ev; apply DApp_step_alerts|].
  revert s. induction evs as [|ev evs IH]; intros s.
  - exists 0%nat. split; [lia | reflexivity].
  - cbn [DApp.run fold_left]. destruct (IH (DApp.step s ev)) as (n & Hn & Hal).
    fold (DApp.run evs (DApp.step s ev)). rewrite Hal.
    destruct (DApp_step_alerts ev s) as [-> | (_ & _ & _ & ->)].
    + exists n. split; [simpl; lia | reflexivity].
    + exists (S n). split; [simpl; lia|].
      cbn [DApp.alert DApp.alerts].
      rewrite replicate_S_end. by rewrite <- app_assoc.
Qed.

(** Drafts with an exponent or a fraction are saved, the draft ["12px"] is
    refused with the alert. *)
Example drafts_saved_or_refused :
  let s := DApp.startEdit 0 (DApp.commitKnob "d1" DApp.default_state) in
  let amounts t := DApp.sum_amounts (DApp.entries (DApp.saveEdit (DApp.setEditAmount t s))) in
  amounts "1e3" = Double.Finite (inject_Z 1000) /\
  amounts "0.5" = Double.Finite (1 # 2) /\
  DApp.alerts (DApp.saveEdit (DApp.setEditAmount "0.5" s)) = [] /\
  DApp.saveEdit (DApp.setEditAmount "12px" s)
    = DApp.alert "Enter a valid numeric amount" (DApp.setEditAmount "12px" s).
Proof. repeat apply conj; vm_compute; reflexivity. Qed.

(** ** Adding and deleting again *)

Lemma DApp_filter_index_past (arr : list DApp.slot) (k idx : nat) :
  DApp.Hole ∉ arr -> (idx < k)%nat -> DApp.filter_index_from k idx arr = arr.
Proof.
  revert k. induction arr as [|x arr IH]; intros k Hh Hk; [reflexivity|].
  apply not_elem_of_cons in Hh as [Hx Hh]. simpl.
  destruct (Nat.eqb_spec k idx); [lia|].
  rewrite IH by (done || lia). by destruct x.
Qed.

(** X22.  When progress and amount are integers, together below [2^53] in
    absolute value, deleting row 0 right after an [addEntry] that was
    accepted takes the new entry out again: the progress is what it was
    before the two calls, and so is the array when it had no holes.  When
    no edit session was open on row 0 the whole state is back. *)
Theorem addEntry_then_deleteEntry_on_integers (a : DApp.value) (label : option string)
    (now : string) (s : DApp.State) (z p : Z) :
  DApp.ToNumber a = Double.Finite (inject_Z z) -> z <> 0 ->
  DApp.progress s = Double.Finite (inject_Z p) -> Z.abs p + Z.abs z < 2 ^ 53 ->
  DApp.Hole ∉ DApp.entries s ->
  let s' := DApp.deleteEntry 0 (DApp.addEntry a label now s) in
  DApp.entries s' = DApp.entries s /\ DApp.progress s' = DApp.progress s /\
  (DApp.editIdx s <> Some 0%nat -> s' = s).
Proof.
  intros Ha Hz Hp Hb Hh s'.
  assert (DApp.addEntry a label now s =
          DApp.setProgress (fun _ => Double.Finite (inject_Z (p + z)))
            (DApp.setEntries (fun _ =>
               DApp.Elem {| DApp.amount := Double.Finite (inject_Z z);
                            DApp.partName := if string_truthy (default "" label)
                                             then Some (default "" label) else None;
                            DApp.date := Some now |} :: DApp.entries s) s)) as Hadd.
  { unfold DApp.addEntry. rewrite Ha. simpl. destruct (Z.eqb_spec z 0); [done|].
    unfold DApp.setEntries, DApp.setProgress. simpl.
    rewrite (DApp_spread_no_hole (DApp.entries s) Hh), Hp, add_int by lia. reflexivity. }
  assert (DApp.filter_index_from 1 0 (DApp.entries s) = DApp.entries s) as Hf
    by (apply DApp_filter_index_past; [done | lia]).
  assert (Double.sub (Double.Finite (inject_Z (p + z))) (Double.Finite (inject_Z z))
          = DApp.progress s) as Hsub.
  { rewrite sub_int by lia. rewrite Hp. do 2 f_equal. lia. }
  assert (DApp.entries s' = DApp.entries s /\ DApp.progress s' = DApp.progress s) as [He Hp'].
  { subst s'. rewrite Hadd. unfold DApp.deleteEntry, DApp.get, DApp.filter_index_ne.
    cbn -[Double.sub inject_Z].
    destruct (decide (DApp.editIdx s = Some 0%nat)); cbn -[Double.sub inject_Z];
      rewrite Hf, Hsub; done. }
  split; [exact He|]. split; [exact Hp'|].
  intros Hi. destruct s as [ts pr en kv pa la ss ei ea nm sc al].
  subst s'. rewrite Hadd in *.
  unfold DApp.deleteEntry, DApp.get, DApp.filter_index_ne in *.
  cbn -[Double.sub inject_Z] in *.
  destruct (decide (ei = Some 0%nat)); [done|].
  unfold DApp.setProgress, DApp.setEntries. cbn -[Double.sub inject_Z].
  rewrite Hsub, Hf. reflexivity.
Qed.

Lemma addEntry_then_deleteEntry_on_integers_witness :
  DApp.deleteEntry 0 (DApp.addEntry (DApp.Vstring "-250") (Some "fee") "d1" DApp.default_state)
    = DApp.default_state.
Proof.
  apply (addEntry_then_deleteEntry_on_integers (DApp.Vstring "-250") (Some "fee") "d1"
           DApp.default_state (-250) 25000);
    [reflexivity | lia | reflexivity | reflexivity | | discriminate].
  apply not_elem_of_nil.
Defined.

(** With a fraction the progress does not come back: from the stored
    progress 0.1, adding 1000 and deleting the row again leaves
    0.10000000000002274. *)
Example addEntry_then_deleteEntry_fractions :
  let s := DApp.App_init (fun _ => None) {[STORAGE_KEYS.PROGRESS := "0.1"]} in
  Double.NumberToString (DApp.progress (DApp.deleteEntry 0 (DApp.commitKnob "d1" s)))
    = "0.10000000000002274".
Proof. vm_compute. reflexivity. Qed.

(** ** The drag gesture on integer positions *)

(** A tenth of a positive integer below [2^40] as a double: a multiple
    [m / S] of a power of two [1 / S] at most [1 / (2 S)] off, and the
    tenth itself when that is a multiple of a half. *)
Lemma round_pos_tenth (n : positive) :
  Zpos n < 2 ^ 40 ->
  exists (m : Z) (S : positive),
    Double.round_pos n 10 = Double.Finite (Qred (m # S)) /\
    2 ^ 16 <= Zpos S /\ Z.abs (10 * m - Zpos n * Zpos S) <= 5 /\
    (Zpos n mod 10 = 5 -> 10 * m = Zpos n * Zpos S).
Proof.
  intros Hn. unfold Double.round_pos.
  set (e := Double.floor_log2 n 10).
  assert (-4 <= e <= 36) as He.
  { subst e. unfold Double.floor_log2. change (Z.log2 10) with 3.
    pose proof (Z.log2_nonneg (Zpos n)).
    assert (Z.log2 (Zpos n) < 40) by (apply Z.log2_lt_pow2; lia).
    destruct (_ <=? _); lia. }
  cbv zeta.
  rewrite (Z.max_l (e - 52) (-1074)) by lia.
  rewrite (Z.max_l (- (e - 52)) 0), (Z.max_r (e - 52) 0) by lia.
  change (2 ^ 0) with 1. rewrite !Z.mul_1_r.
  destruct (Z.ltb_spec 971 (e - 52)); [lia|].
  destruct (Z.eqb_spec (e - 52) 971); [lia|]. cbn [orb andb].
  set (P := 2 ^ (- (e - 52))).
  assert (2 ^ 16 <= P) as HP by (subst P; apply Z.pow_le_mono_r; lia).
  assert (exists h, P = 2 * h) as [h Hh].
  { exists (2 ^ (- (e - 52) - 1)). subst P. rewrite <- Z.pow_succ_r by lia.
    f_equal. lia. }
  pose proof (Z.div_mod (Zpos n * P) 10 ltac:(lia)) as Hdm.
  pose proof (Z.mod_pos_bound (Zpos n * P) 10 ltac:(lia)) as Hr.
  set (q := Zpos n * P / 10) in *. set (r := (Zpos n * P) mod 10) in *.
  eexists _, (Z.to_pos P). split; [reflexivity|].
  rewrite Z2Pos.id by lia. split; [exact HP|].
  assert (Zpos n mod 10 = 5 -> r = 0) as Hexact.
  { intros H5. subst r.
    pose proof (Z.div_mod (Zpos n) 10 ltac:(lia)) as Hn10. rewrite H5 in Hn10.
    replace (Zpos n * P) with ((2 * (Zpos n / 10) * h + h) * 10) by (rewrite Hh; lia).
    apply Z.mod_mul. lia. }
  destruct (Z.ltb_spec (2 * r) 10).
  - split; [lia|]. intros H5. apply Hexact in H5. lia.
  - destruct (Z.eqb_spec (2 * r) 10).
    + split; [destruct (Z.even q); lia|]. intros H5. apply Hexact in H5. lia.
    + split; [lia|]. intros H5. apply Hexact in H5. lia.
Qed.

Lemma round_tenth (d : Z) :
  Z.abs d < 2 ^ 40 ->
  exists (x : Q) (m : Z) (S : positive),
    Double.round (d # 10) = Double.Finite x /\ Qeq x (m # S) /\
    2 ^ 16 <= Zpos S /\ Z.abs (10 * m - d * Zpos S) <= 5 /\
    (d mod 10 = 5 -> 10 * m = d * Zpos S).
Proof.
  intros Hd. unfold Double.round. cbn [Qnum Qden]. destruct d as [|n|n].
  - exists 0%Q, 0, (Z.to_pos (2 ^ 16)). repeat apply conj; try done.
  - destruct (round_pos_tenth n ltac:(lia)) as (m & S & Hr & HS & Hm & Hx).
    exists (Qred (m # S)), m, S. rewrite Hr.
    repeat apply conj; try done. apply Qred_correct.
  - destruct (round_pos_tenth n ltac:(lia)) as (m & S & Hr & HS & Hm & Hx).
    exists (Qopp (Qred (m # S))), (- m), S. rewrite Hr.
    repeat apply conj; try done.
    + rewrite Qred_correct. reflexivity.
    + lia.
    + intros H5. assert (Zpos n mod 10 = 5) as H5'.
      { pose proof (Z.div_mod (Zneg n) 10 ltac:(lia)) as H. rewrite H5 in H.
        symmetry. apply (Z.mod_unique_pos _ _ (- (Zneg n / 10) - 1)); lia. }
      apply Hx in H5'. lia.
Qed.

(** [Math.round(d / 10)] on an integer [d] below [2^40]. *)
Lemma Math_round_tenth (d : Z) :
  Z.abs d < 2 ^ 40 ->
  Double.Math_round (Double.div_pos (Double.Finite (inject_Z d)) 10) =
  Double.Finite (inject_Z (Math_round_div d 10)).
Proof.
  intros Hd. cbn [Double.div_pos].
  assert (Qmult (inject_Z d) (1 # 10) = d # 10) as ->
    by (unfold Qmult, inject_Z; simpl; f_equal; lia).
  destruct (round_tenth d Hd) as (x & m & S & -> & Hx & HS & Hm & Hexact).
  cbn [Double.Math_round]. do 2 f_equal.
  rewrite Hx. unfold Qfloor, Qplus. cbn [Qnum Qden].
  unfold Math_round_div. change (2 * 10) with 20.
  rewrite Pos2Z.inj_mul. change (Zpos 2) with 2.
  set (K := (2 * d + 10) / 20).
  pose proof (Z.div_mod (2 * d + 10) 20 ltac:(lia)) as Hdm. fold K in Hdm.
  pose proof (Z.mod_pos_bound (2 * d + 10) 20 ltac:(lia)) as Hj.
  set (j := (2 * d + 10) mod 20) in *.
  symmetry. apply (Z.div_unique _ _ K (m * 2 + 1 * Zpos S - Zpos S * 2 * K)); [|lia].
  left.
  assert (d * Zpos S * 2 + 10 * Zpos S = 20 * (Zpos S * K) + Zpos S * j) as Heq by nia.
  assert (0 <= Zpos S * j <= 19 * Zpos S) as Hb by nia.
  assert (j = 0 -> d mod 10 = 5) as Hj0.
  { intros H0. symmetry. apply (Z.mod_unique_pos _ _ (K - 1)); lia. }
  destruct (Z.eq_dec j 0) as [E|E].
  - specialize (Hexact (Hj0 E)). rewrite E in *. lia.
  - assert (1 * Zpos S <= Zpos S * j) by nia.
    assert (Zpos S * j <= 18 * Zpos S).
    { assert (j <> 19) as Hodd.
      { intros ->. assert ((2 * d + 10) mod 2 = 1) as Hp.
        { rewrite Hdm. replace (20 * K + 19) with (1 + (10 * K + 9) * 2) by lia.
          by rewrite Z.mod_add. }
        replace (2 * d + 10) with ((d + 5) * 2) in Hp by lia.
        rewrite Z.mod_mul in Hp; lia. }
      nia. }
    lia.
Qed.

Lemma dragSteps_int (x r : Z) (s : DApp.State) :
  default (Double.Finite 0) (DApp.lastAngle s) = Double.Finite (inject_Z r) ->
  Z.abs (x - r) < 2 ^ 40 ->
  DApp.dragSteps (Double.Finite (inject_Z x)) s =
  Double.Finite (inject_Z (Math_round_div (x - r) 10)).
Proof.
  intros Hr Hb. unfold DApp.dragSteps. rewrite Hr, sub_int by lia.
  by apply Math_round_tenth.
Qed.

Lemma onPointerMove_int (x r v t : Z) (s : DApp.State) :
  DApp.pointerActive s = true ->
  DApp.lastAngle s = Some (Double.Finite (inject_Z r)) ->
  DApp.knobValue s = Double.Finite (inject_Z v) ->
  DApp.targetSum s = Double.Finite (inject_Z t) ->
  Z.abs (x - r) < 2 ^ 40 -> Z.abs v < 2 ^ 52 -> Z.abs t < 2 ^ 51 ->
  let k := Math_round_div (x - r) 10 in
  DApp.onPointerMove (Double.Finite (inject_Z x)) s =
  if k =? 0 then s
  else DApp.setLastAngle (Some (Double.Finite (inject_Z x)))
         (DApp.setKnobValue
            (fun _ => Double.Finite
                        (inject_Z (Z.max 0 (Z.min (Z.max 1000 (t * 2)) (v + k * 1000))))) s).
Proof.
  intros Ha Hr Hv Ht Hb Hbv Hbt k.
  assert (Z.abs k * 5 <= Z.abs (x - r)) as Hk.
  { destruct (Z.eq_dec k 0) as [->|Hk]; [lia|].
    pose proof (Math_round_div_10_bound (x - r) Hk). lia. }
  unfold DApp.onPointerMove. rewrite Ha. cbn [negb].
  rewrite (dragSteps_int x r s) by (by rewrite ?Hr). fold k.
  change (Double.Finite 0) with (Double.Finite (inject_Z 0)).
  destruct (Z.eqb_spec k 0) as [E|E].
  - apply strict_eq_int in E. by rewrite E.
  - destruct (Double.strict_eq _ _) eqn:E'; [by apply strict_eq_int in E'|].
    cbn [negb]. unfold DApp.setKnobValue, DApp.knobMax, DApp.clamp. rewrite Hv, Ht.
    change (Double.Finite 1000) with (Double.Finite (inject_Z 1000)).
    change (Double.Finite 2) with (Double.Finite (inject_Z 2)).
    rewrite !mul_int, add_int by lia.
    by rewrite Math_max_int, Math_min_int, Math_max_int.
Qed.

Lemma drag_travel_bound_from_int (xs : list Z) :
  forall (s : DApp.State) (r p v t : Z),
    DApp.pointerActive s = true ->
    DApp.lastAngle s = Some (Double.Finite (inject_Z r)) ->
    DApp.knobValue s = Double.Finite (inject_Z v) ->
    DApp.targetSum s = Double.Finite (inject_Z t) ->
    0 <= v <= Z.max 1000 (2 * t) -> Z.abs t < 2 ^ 51 ->
    Z.abs r < 2 ^ 39 -> Forall (fun x => Z.abs x < 2 ^ 39) xs ->
    exists v',
      DApp.knobValue
        (DApp.run (map (fun x => DApp.EvPointerMove (Double.Finite (inject_Z x))) xs) s)
        = Double.Finite (inject_Z v') /\
      Z.abs (v' - v) <= 200 * (Z.abs (p - r) + travel p xs) /\
      0 <= v' <= Z.max 1000 (2 * t).
Proof.
  induction xs as [|x xs IH]; intros s r p v t Ha Hr Hv Ht Hin Hbt Hbr Hxs.
  - exists v. simpl. split; [exact Hv|]. lia.
  - apply Forall_cons in Hxs as [Hbx Hxs].
    cbn [map DApp.run fold_left DApp.step travel].
    fold (DApp.run (map (fun x => DApp.EvPointerMove (Double.Finite (inject_Z x))) xs)
            (DApp.onPointerMove (Double.Finite (inject_Z x)) s)).
    rewrite (onPointerMove_int x r v t s Ha Hr Hv Ht) by lia.
    destruct (Z.eqb_spec (Math_round_div (x - r) 10) 0) as [H0|H0].
    + destruct (IH s r x v t Ha Hr Hv Ht Hin Hbt Hbr Hxs) as (v' & Hv' & Hb & Hin').
      exists v'. split; [exact Hv'|]. split; [lia | exact Hin'].
    + pose proof (Math_round_div_10_bound (x - r) H0) as Hsb.
      set (k := Math_round_div (x - r) 10) in *.
      set (v1 := Z.max 0 (Z.min (Z.max 1000 (t * 2)) (v + k * 1000))).
      destruct (IH (DApp.setLastAngle (Some (Double.Finite (inject_Z x)))
                      (DApp.setKnobValue (fun _ => Double.Finite (inject_Z v1)) s))
                  x x v1 t Ha eq_refl eq_refl Ht ltac:(subst v1; lia) Hbt Hbx Hxs)
        as (v' & Hv' & Hb & Hin').
      exists v'. split; [exact Hv'|]. split; [|exact Hin'].
      assert (Z.abs (v1 - v) <= 1000 * Z.abs k) by (subst v1; lia).
      lia.
Qed.

(** X6.  From pointer down on, with integer pixel positions (below [2^39])
    and an integer target (below [2^51]), while the pending value starts as
    an integer inside its range, a drag changes it by at most 200 units for
    every pixel the pointer travels, whatever the samples are, and keeps it
    an integer inside the range. *)
Theorem drag_travel_bound_on_integers (x0 : Z) (xs : list Z) (s : DApp.State) (v t : Z) :
  DApp.knobValue s = Double.Finite (inject_Z v) ->
  DApp.targetSum s = Double.Finite (inject_Z t) ->
  0 <= v <= Z.max 1000 (2 * t) -> Z.abs t < 2 ^ 51 ->
  Forall (fun x => Z.abs x < 2 ^ 39) (x0 :: xs) ->
  exists v',
    DApp.knobValue
      (DApp.run (DApp.EvPointerDown (Double.Finite (inject_Z x0))
                 :: map (fun x => DApp.EvPointerMove (Double.Finite (inject_Z x))) xs) s)
      = Double.Finite (inject_Z v') /\
    Z.abs (v' - v) <= 200 * travel x0 xs /\
    0 <= v' <= Z.max 1000 (2 * t).
Proof.
  intros Hv Ht Hin Hbt Hxs. apply Forall_cons in Hxs as [Hb0 Hxs].
  cbn [DApp.run fold_left DApp.step].
  destruct (drag_travel_bound_from_int xs
              (DApp.onPointerDown (Double.Finite (inject_Z x0)) s) x0 x0 v t
              eq_refl eq_refl Hv Ht Hin Hbt Hb0 Hxs) as (v' & Hv' & Hb & Hin').
  exists v'. split; [exact Hv'|]. split; [lia | exact Hin'].
Qed.

Lemma drag_travel_bound_on_integers_witness :
  exists v',
    DApp.knobValue
      (DApp.run (DApp.EvPointerDown (Double.Finite (inject_Z 100))
                 :: map (fun x => DApp.EvPointerMove (Double.Finite (inject_Z x)))
                      [105; 100; 105; 100; 60]) DApp.default_state)
      = Double.Finite (inject_Z v') /\
    Z.abs (v' - 1000) <= 200 * travel 100 [105; 100; 105; 100; 60] /\
    0 <= v' <= Z.max 1000 (2 * 100000).
Proof.
  apply (drag_travel_bound_on_integers 100 [105; 100; 105; 100; 60] DApp.default_state
           1000 100000); [reflexivity | reflexivity | lia | reflexivity |].
  repeat (apply Forall_cons_2; [reflexivity|]). apply Forall_nil_2.
Defined.

(** Under a target with a fraction the pending value leaves the integers
    at the end of its range: under the target 912.13 twenty pixels to the
    right take it from 1000 to 1824.26, and ten pixels back to 824.26. *)
Example drag_fractions :
  let s := DApp.onPointerDown (Double.Finite (inject_Z 100))
             (DApp.changeTarget "912.13" DApp.default_state) in
  let after xs := Double.NumberToString (DApp.knobValue
                    (DApp.run (map (fun x => DApp.EvPointerMove (Double.Finite (inject_Z x))) xs) s)) in
  after [120] = "1824.26" /\ after [120; 110] = "824.26".
Proof. split; vm_compute; reflexivity. Qed.

(** ** [Number] on the decimal text of an integer *)

Lemma digit_value_byte (c : ascii) (d : Z) :
  digit_value c = Some d ->
  (48 <= Double.byte c <= 57)%nat /\ d = Z.of_nat (Double.byte c) - 48.
Proof.
  unfold digit_value, Double.byte. cbv zeta.
  destruct (Nat.leb_spec 48 (nat_of_ascii c)); [|discriminate].
  destruct (Nat.leb_spec (nat_of_ascii c) 57); [|discriminate].
  simpl. intros [= <-]. lia.
Qed.

Lemma digit_of_digit_value (c : ascii) (d : Z) :
  digit_value c = Some d -> Double.digit_of 10 c = Some d.
Proof.
  intros H. destruct (digit_value_byte c d H) as [Hb ->].
  unfold Double.digit_of. cbv zeta.
  destruct (Z.leb_spec 48 (Z.of_nat (Double.byte c))); [|lia].
  destruct (Z.leb_spec (Z.of_nat (Double.byte c)) 57); [|lia].
  simpl. destruct (Z.ltb_spec (Z.of_nat (Double.byte c) - 48) 10); [reflexivity | lia].
Qed.

Lemma span_digits_all (s : string) :
  forall acc n v, all_digits s = true -> digits_value acc s = Some v ->
  Double.span_digits 10 acc n s = (v, (n + String.length s)%nat, "").
Proof.
  induction s as [|c s IH]; intros acc n v Hs Hv; simpl in *.
  - injection Hv as <-. by rewrite Nat.add_0_r.
  - destruct (digit_value c) as [d|] eqn:Hd; [|discriminate].
    rewrite (digit_of_digit_value c d Hd).
    rewrite (IH _ (S n) v Hs Hv). do 2 f_equal. lia.
Qed.

Lemma digit_not_white1 (c : ascii) (d : Z) :
  digit_value c = Some d -> Double.white1 c = false.
Proof.
  intros H. destruct (digit_value_byte c d H) as [Hb _]. unfold Double.white1.
  destruct (Nat.leb_spec (Double.byte c) 13); [lia|].
  rewrite andb_false_r. simpl. apply Nat.eqb_neq. lia.
Qed.

Lemma digit_not_white2 (c c2 : ascii) (d : Z) :
  digit_value c = Some d -> Double.white2 c c2 = false.
Proof.
  intros H. destruct (digit_value_byte c d H) as [Hb _]. unfold Double.white2.
  destruct (Nat.eqb_spec (Double.byte c) 194); [lia | reflexivity].
Qed.

Lemma digit_not_white3 (c c2 c3 : ascii) (d : Z) :
  digit_value c = Some d -> Double.white3 c c2 c3 = false.
Proof.
  intros H. destruct (digit_value_byte c d H) as [Hb _]. unfold Double.white3. cbv zeta.
  destruct (Nat.eqb_spec (Double.byte c) 225); [lia|].
  destruct (Nat.eqb_spec (Double.byte c) 226); [lia|].
  destruct (Nat.eqb_spec (Double.byte c) 227); [lia|].
  destruct (Nat.eqb_spec (Double.byte c) 239); [lia|]. reflexivity.
Qed.

Lemma Double_trimStart_digit (c : ascii) (s : string) (d : Z) :
  digit_value c = Some d -> Double.trimStart (String c s) = String c s.
Proof.
  intros H. cbn [Double.trimStart]. rewrite (digit_not_white1 c d H).
  destruct s as [|c2 s]; [reflexivity|]. rewrite (digit_not_white2 c c2 d H).
  destruct s as [|c3 s]; [reflexivity|]. by rewrite (digit_not_white3 c c2 c3 d H).
Qed.

Lemma Double_all_white_digit (c : ascii) (s : string) (d : Z) :
  digit_value c = Some d -> Double.all_white (String c s) = false.
Proof.
  intros H. cbn [Double.all_white]. rewrite (digit_not_white1 c d H).
  destruct s as [|c2 s]; [reflexivity|]. rewrite (digit_not_white2 c c2 d H).
  destruct s as [|c3 s]; [reflexivity|]. by rewrite (digit_not_white3 c c2 c3 d H).
Qed.

Lemma Double_trimEnd_digits (s : string) :
  all_digits s = true -> Double.trimEnd s = s.
Proof.
  induction s as [|c s IH]; [reflexivity|]. cbn [all_digits].
  destruct (digit_value c) as [d|] eqn:Hd; [|discriminate]. intros Hs.
  cbn [Double.trimEnd]. rewrite (Double_all_white_digit c s d Hd). by rewrite IH.
Qed.

Lemma Double_trim_digits (s : string) : all_digits s = true -> Double.trim s = s.
Proof.
  intros Hs. unfold Double.trim.
  assert (Double.trimStart s = s) as ->; [|by apply Double_trimEnd_digits].
  destruct s as [|c s]; [reflexivity|]. cbn [all_digits] in Hs.
  destruct (digit_value c) as [d|] eqn:Hd; [|discriminate].
  by apply (Double_trimStart_digit c s d).
Qed.

Lemma unsigned_decimal_digits (s : string) (v : Z) :
  s <> "" -> all_digits s = true -> digits_value 0 s = Some v ->
  Double.unsigned_decimal s = Double.round (inject_Z v).
Proof.
  intros Hne Hs Hv. unfold Double.unsigned_decimal.
  assert (String.eqb s "Infinity" = false) as ->.
  { destruct s as [|c s]; [done|]. cbn [all_digits] in Hs.
    destruct (digit_value c) as [d|] eqn:Hd; [|discriminate].
    apply String.eqb_neq. intros [= -> _]. discriminate Hd. }
  rewrite (span_digits_all s 0 0 v Hs Hv). cbn [Nat.add].
  destruct (String.length s) as [|n] eqn:Hlen; [by destruct s|].
  rewrite Nat.add_0_r. cbn [Double.exponent_part]. unfold Double.of_decimal.
  destruct (Z.eqb_spec v 0) as [->|Hv0]; [reflexivity|].
  change (0 - Z.of_nat 0) with 0. cbn [Z.leb Z.compare Z.ltb]. 
  change (10 ^ 0) with 1. by rewrite Z.mul_1_r.
Qed.

(** [Number] of a text of decimal digits is the double nearest to the
    integer they denote. *)
Lemma Double_StringToNumber_digits (s : string) (v : Z) :
  s <> "" -> all_digits s = true -> digits_value 0 s = Some v ->
  Double.StringToNumber s = Double.round (inject_Z v) /\
  Double.StringToNumber (String "-" s) = Double.neg (Double.round (inject_Z v)).
Proof.
  intros Hne Hs Hv.
  pose proof (unsigned_decimal_digits s v Hne Hs Hv) as Hu.
  destruct s as [|c s]; [done|]. pose proof Hs as Hs'. cbn [all_digits] in Hs'.
  destruct (digit_value c) as [d|] eqn:Hd; [|discriminate].
  split.
  - unfold Double.StringToNumber. rewrite (Double_trim_digits _ Hs).
    assert (c <> "+"%char /\ c <> "-"%char) as [Hp Hm]
      by (split; intros ->; discriminate Hd).
    assert (Double.non_decimal (String c s) = None) as Hnd.
    { unfold Double.non_decimal.
      destruct (Ascii.eqb_spec c "0") as [->|Hc0].
      - destruct s as [|c2 s]; [reflexivity|]. cbn [all_digits] in Hs'.
        destruct (digit_value c2) as [d2|] eqn:Hd2; [|discriminate].
        destruct (digit_value_byte c2 d2 Hd2) as [Hb _].
        destruct (Nat.eqb_spec (Double.byte c2) 120); [lia|].
        destruct (Nat.eqb_spec (Double.byte c2) 88); [lia|].
        destruct (Nat.eqb_spec (Double.byte c2) 111); [lia|].
        destruct (Nat.eqb_spec (Double.byte c2) 79); [lia|].
        destruct (Nat.eqb_spec (Double.byte c2) 98); [lia|].
        destruct (Nat.eqb_spec (Double.byte c2) 66); [lia|]. reflexivity.
      - destruct c as [[] [] [] [] [] [] [] []]; try reflexivity; congruence. }
    rewrite <- Hu.
    destruct c as [[] [] [] [] [] [] [] []]; try (rewrite Hnd; reflexivity); congruence.
  - unfold Double.StringToNumber, Double.trim.
    assert (Double.trimStart (String "-" (String c s)) = String "-" (String c s)) as ->.
    { cbn [Double.trimStart]. change (Double.white1 "-") with false. cbv iota.
      change (Double.white2 "-" c) with false. cbv iota.
      destruct s; [reflexivity|]. reflexivity. }
    cbn [Double.trimEnd].
    assert (Double.all_white (String "-" (String c s)) = false) as ->.
    { cbn [Double.all_white]. change (Double.white1 "-") with false. cbv iota.
      change (Double.white2 "-" c) with false. cbv iota.
      destruct s; reflexivity. }
    rewrite (Double_all_white_digit c s d Hd).
    assert (Double.trimEnd s = s) as Hts by (by apply Double_trimEnd_digits).
    rewrite Hts. by rewrite Hu.
Qed.

(** ** [String] on a safe integer *)

Lemma floor_log2_int (n : positive) : Double.floor_log2 n 1 = Z.log2 (Zpos n).
Proof.
  unfold Double.floor_log2. change (Z.log2 1) with 0. rewrite Z.sub_0_r.
  set (k := Z.log2 (Zpos n)).
  assert (0 <= k) as Hk0 by apply Z.log2_nonneg.
  assert (2 ^ k <= Zpos n) as Hlow by (apply Z.log2_spec; lia).
  rewrite (Z.max_l k 0), (Z.max_r (- k) 0) by lia.
  change (2 ^ 0) with 1.
  destruct (Z.leb_spec (1 * 2 ^ k) (Zpos n * 1)); [reflexivity | lia].
Qed.

(** An integer of [[2^53, 2^54)] is rounded to an even one there or to
    [2^54]: to no integer below [2^53]. *)
Lemma round_above_safe (c z : Z) :
  2 ^ 53 <= c < 2 ^ 54 -> Z.abs z < 2 ^ 53 ->
  Double.strict_eq (Double.round (inject_Z c)) (Double.Finite (inject_Z z)) = false.
Proof.
  intros Hc Hz. destruct c as [|n|n]; [lia| |lia].
  unfold Double.round. cbn [inject_Z Qnum Qden]. unfold Double.round_pos.
  rewrite floor_log2_int.
  assert (Z.log2 (Zpos n) = 53) as ->
    by (apply Z.log2_unique; [lia | change (Z.succ 53) with 54; lia]).
  cbv zeta. change (Z.max (53 - 52) (-1074)) with 1.
  change (Z.max (Z.opp 1) 0) with 0. change (Z.max 1 0) with 1.
  change (2 ^ 0) with 1. change (2 ^ 1) with 2. rewrite !Z.mul_1_r, Z.mul_1_l.
  change (971 <? 1) with false. change (1 =? 971) with false. cbn [orb andb].
  pose proof (Z.div_mod (Zpos n) 2 ltac:(lia)) as Hdm.
  pose proof (Z.mod_pos_bound (Zpos n) 2 ltac:(lia)) as Hr.
  set (q := Zpos n / 2) in *. set (r := Zpos n mod 2) in *.
  set (m := if 2 * r <? 2 then q else _).
  assert (q <= m) as Hm.
  { subst m. destruct (2 * r <? 2); [lia|].
    destruct (2 * r =? 2); [destruct (Z.even q); lia | lia]. }
  cbn [Double.strict_eq]. destruct (Qeq_bool _ _) eqn:E; [|reflexivity].
  apply Qeq_bool_iff in E. rewrite Qred_correct in E.
  unfold Qeq in E. cbn [Qnum Qden inject_Z] in E. change (Z.to_pos 1) with 1%positive in E.
  lia.
Qed.

Lemma ge_pow10_int (n : positive) (e : Z) :
  0 <= e -> Double.ge_pow10 n 1 e = (10 ^ e <=? Zpos n).
Proof.
  intros He. unfold Double.ge_pow10.
  destruct (Z.leb_spec 0 e); [|lia]. by rewrite Z.mul_1_l.
Qed.

Lemma adjust_log10_step (n : positive) (e : Z) (f : nat) :
  0 <= e -> 10 ^ e <= Zpos n ->
  Double.adjust_log10 (S f) n 1 e =
  if 10 ^ (e + 1) <=? Zpos n then Double.adjust_log10 f n 1 (e + 1) else e.
Proof.
  intros He Hlo. cbn [Double.adjust_log10].
  rewrite (ge_pow10_int n e), (ge_pow10_int n (e + 1)) by lia.
  destruct (Z.leb_spec (10 ^ e) (Zpos n)); [reflexivity | lia].
Qed.

Lemma adjust_log10_near (n : positive) (e : Z) (f : nat) :
  0 <= e -> 10 ^ e <= Zpos n < 10 ^ (e + 2) ->
  exists e', Double.adjust_log10 (S (S f)) n 1 e = e' /\ e <= e' <= e + 1 /\
             10 ^ e' <= Zpos n < 10 ^ (e' + 1).
Proof.
  intros He [Hlo Hhi]. rewrite adjust_log10_step by lia.
  destruct (Z.leb_spec (10 ^ (e + 1)) (Zpos n)).
  - rewrite adjust_log10_step by lia.
    replace (e + 1 + 1) with (e + 2) by lia.
    destruct (Z.leb_spec (10 ^ (e + 2)) (Zpos n)); [lia|].
    exists (e + 1). replace (e + 1 + 1) with (e + 2) by lia.
    split; [reflexivity|]. lia.
  - exists e. split; [reflexivity|]. lia.
Qed.

Lemma log10_estimate (L : Z) :
  0 <= L <= 52 ->
  0 <= L * 1233 / 4096 /\ 10 ^ (L * 1233 / 4096) <= 2 ^ L /\
  2 ^ (L + 1) <= 10 ^ (L * 1233 / 4096 + 2).
Proof.
  intros HL.
  assert (forallb (fun l => let L := Z.of_nat l in
                     (0 <=? L * 1233 / 4096) && (10 ^ (L * 1233 / 4096) <=? 2 ^ L)
                     && (2 ^ (L + 1) <=? 10 ^ (L * 1233 / 4096 + 2)))
            (seq 0 53) = true) as H by (vm_compute; reflexivity).
  rewrite forallb_forall in H. specialize (H (Z.to_nat L)).
  rewrite Z2Nat.id in H by lia. cbv zeta in H.
  assert (In (Z.to_nat L) (seq 0 53)) as Hin by (apply in_seq; lia).
  apply H in Hin. apply andb_true_iff in Hin as [Hin H3].
  apply andb_true_iff in Hin as [H1 H2]. lia.
Qed.

(** [floor(log10(n))] for a positive integer below [2^53]. *)
Lemma floor_log10_int (n : positive) :
  Zpos n < 2 ^ 53 ->
  exists e, Double.floor_log10 n 1 = e /\ 0 <= e <= 15 /\
            10 ^ e <= Zpos n < 10 ^ (e + 1).
Proof.
  intros Hn. unfold Double.floor_log10. rewrite floor_log2_int.
  set (L := Z.log2 (Zpos n)).
  assert (0 <= L) as HL0 by apply Z.log2_nonneg.
  assert (2 ^ L <= Zpos n < 2 ^ (L + 1)) as HLn by (apply Z.log2_spec; lia).
  assert (L < 53) as HL by (apply Z.log2_lt_pow2; lia).
  destruct (log10_estimate L ltac:(lia)) as (He0 & He1 & He2).
  destruct (adjust_log10_near n (L * 1233 / 4096) 2 He0 ltac:(lia))
    as (e & -> & He & Hlo & Hhi).
  exists e. split; [reflexivity|]. split; [|lia].
  split; [lia|].
  destruct (Z.le_gt_cases 16 e) as [H16|]; [|lia].
  assert (10 ^ 16 <= 10 ^ e) by (apply Z.pow_le_mono_r; lia). lia.
Qed.

Lemma strip_zeros_spec (fuel : nat) (s0 : Z) :
  0 < s0 ->
  exists i, 0 <= i /\ Double.strip_zeros fuel s0 * 10 ^ i = s0 /\
            0 < Double.strip_zeros fuel s0.
Proof.
  revert s0. induction fuel as [|f IH]; intros s0 Hs.
  - exists 0. simpl. lia.
  - cbn [Double.strip_zeros].
    destruct (Z.eqb_spec (s0 mod 10) 0) as [Hm|Hm]; cbn [andb].
    + destruct (Z.eqb_spec s0 0); [lia|]. cbn [negb].
      pose proof (Z.div_mod s0 10 ltac:(lia)) as Hdm. rewrite Hm in Hdm.
      destruct (IH (s0 / 10) ltac:(lia)) as (i & Hi & Heq & Hpos).
      exists (i + 1). split; [lia|]. split; [|exact Hpos].
      rewrite Z.pow_add_r, Z.pow_1_r by lia. lia.
    + exists 0. simpl. lia.
Qed.

Lemma scaled_nonpos (c p : Z) :
  p <= 0 -> Double.scaled c p = inject_Z (c * 10 ^ (- p)).
Proof.
  intros Hp. unfold Double.scaled. destruct (Z.leb_spec 0 p); [|reflexivity].
  assert (p = 0) as -> by lia. change (10 ^ 0) with 1. change (10 ^ (- 0)) with 1.
  change (Z.to_pos 1) with 1%positive. by rewrite Z.mul_1_r.
Qed.

Lemma scaled_one_nonneg (p : Z) :
  0 <= p -> Double.scaled 1 p = 1 # Z.to_pos (10 ^ p).
Proof. intros Hp. unfold Double.scaled. by destruct (Z.leb_spec 0 p); [|lia]. Qed.

(** The digits of a positive integer below [2^53]: the search stops at the
    first length at which the integer is its leading digits followed by
    zeros. *)
Lemma shortest_int (z : positive) (e10 : Z) :
  Zpos z < 2 ^ 53 -> 0 <= e10 -> 10 ^ e10 <= Zpos z < 10 ^ (e10 + 1) ->
  forall (fuel : nat) (k : Z),
    1 <= k <= e10 + 1 -> e10 + 2 - k <= Z.of_nat fuel ->
    exists s0 j, Double.shortest fuel k (Zpos z # 1) e10 = (s0, e10 + 1) /\
                 0 <= j /\ s0 * 10 ^ j = Zpos z /\ 0 < s0.
Proof.
  intros Hz He Hrange. induction fuel as [|f IH]; intros k Hk Hfuel; [lia|].
  cbn [Double.shortest]. cbv zeta.
  set (p := k - 1 - e10).
  assert (p <= 0) as Hp by lia.
  set (D := 10 ^ (- p)).
  assert (0 < D) as HD by (subst D; apply Z.pow_pos_nonneg; lia).
  assert (D <= Zpos z) as HDz.
  { subst D. transitivity (10 ^ e10); [apply Z.pow_le_mono_r; lia | lia]. }
  rewrite (scaled_one_nonneg (- p)) by lia. fold D.
  assert (Qfloor (Qmult (Zpos z # 1) (1 # Z.to_pos D)) = Zpos z / D) as ->.
  { unfold Qfloor, Qmult. cbn [Qnum Qden]. rewrite Z.mul_1_r, Pos.mul_1_l.
    by rewrite Z2Pos.id by lia. }
  set (lo := Zpos z / D).
  pose proof (Z.div_mod (Zpos z) D ltac:(lia)) as Hdm.
  pose proof (Z.mod_pos_bound (Zpos z) D ltac:(lia)) as Hr.
  fold lo in Hdm.
  assert (0 < lo) as Hlo.
  { subst lo. apply Z.div_str_pos. lia. }
  rewrite !scaled_nonpos by lia. fold D.
  assert (Double.strict_eq (Double.round (inject_Z ((lo + 1) * D)))
            (Double.Finite (Zpos z # 1)) = false) as ->.
  { change (Zpos z # 1) with (inject_Z (Zpos z)).
    destruct (Z.lt_ge_cases ((lo + 1) * D) (2 ^ 53)) as [Hs|Hb].
    - rewrite round_int by lia.
      destruct (Double.strict_eq _ _) eqn:E; [|reflexivity].
      apply strict_eq_int in E. lia.
    - apply round_above_safe; lia. }
  rewrite round_int by lia.
  change (Zpos z # 1) with (inject_Z (Zpos z)).
  destruct (Double.strict_eq (Double.Finite (inject_Z (lo * D)))
              (Double.Finite (inject_Z (Zpos z)))) eqn:E.
  - apply strict_eq_int in E. exists lo, (- p). fold D. repeat split; lia.
  - assert (lo * D <> Zpos z) as Hne.
    { intros Heq. apply strict_eq_int in Heq. congruence. }
    assert (k <= e10) as Hk'.
    { destruct (Z.eq_dec k (e10 + 1)) as [->|]; [|lia].
      exfalso. apply Hne.
      assert (D = 1) as HD1
        by (subst D p; replace (- (e10 + 1 - 1 - e10)) with 0 by lia; reflexivity).
      unfold lo. rewrite HD1, Z.div_1_r. lia. }
    apply IH; lia.
Qed.

Lemma digits_value_app (a b : string) :
  forall acc v, digits_value acc a = Some v ->
  digits_value acc (a ++ b) = digits_value v b.
Proof.
  induction a as [|c a IH]; intros acc v H; simpl in *.
  - by injection H as ->.
  - destruct (digit_value c); [by apply IH | discriminate].
Qed.

Lemma all_digits_app (a b : string) :
  all_digits a = true -> all_digits b = true -> all_digits (a ++ b) = true.
Proof.
  induction a as [|c a IH]; intros Ha Hb; simpl in *; [exact Hb|].
  destruct (digit_value c); [by apply IH | discriminate].
Qed.

Lemma all_digits_zeros (m : nat) : all_digits (Double.zeros m) = true.
Proof. induction m; [reflexivity | exact IHm]. Qed.

Lemma digits_value_zeros (m : nat) (acc : Z) :
  digits_value acc (Double.zeros m) = Some (acc * 10 ^ Z.of_nat m).
Proof.
  revert acc. induction m as [|m IH]; intros acc.
  - simpl. f_equal. lia.
  - cbn [Double.zeros digits_value]. change (digit_value "0") with (Some 0).
    cbv iota. rewrite IH. f_equal. rewrite Nat2Z.inj_succ, Z.pow_succ_r by lia. lia.
Qed.

Lemma pretty_Zpos (p : positive) : pretty (Zpos p) = pretty_N_go (Npos p) "".
Proof.
  unfold pretty, pretty_Z, pretty, pretty_positive, pretty, pretty_N.
  by destruct (decide (N.pos p = 0%N)).
Qed.

Lemma pretty_N_go_length (n : nat) :
  forall (x : N) (s : string),
    (10 ^ N.of_nat n <= x < 10 ^ N.of_nat (S n))%N ->
    String.length (pretty_N_go x s) = (S n + String.length s)%nat.
Proof.
  induction n as [|n IH]; intros x s [Hlo Hhi].
  - change (10 ^ N.of_nat 0)%N with 1%N in Hlo. change (10 ^ N.of_nat 1)%N with 10%N in Hhi.
    rewrite pretty_N_go_step by lia.
    assert (x `div` 10 = 0)%N as -> by (apply N.div_small; lia).
    by rewrite pretty_N_go_0.
  - assert (0 < 10 ^ N.of_nat n)%N as Hpos by (apply N.neq_0_lt_0, N.pow_nonzero; lia).
    rewrite Nat2N.inj_succ, N.pow_succ_r' in Hlo.
    rewrite !Nat2N.inj_succ, !N.pow_succ_r' in Hhi.
    rewrite pretty_N_go_step by lia.
    rewrite IH; [simpl; lia|].
    rewrite Nat2N.inj_succ, N.pow_succ_r'.
    split.
    + apply N.div_le_lower_bound; lia.
    + apply N.Div0.div_lt_upper_bound; lia.
Qed.

(** The decimal text of a positive integer: digits only, that denote the
    integer, as many as it has. *)
Lemma pretty_positive_digits (s : Z) (n : Z) :
  0 <= n -> 10 ^ n <= s < 10 ^ (n + 1) ->
  pretty s <> "" /\ all_digits (pretty s) = true /\
  digits_value 0 (pretty s) = Some s /\
  Z.of_nat (String.length (pretty s)) = n + 1.
Proof.
  intros Hn [Hlo Hhi].
  assert (0 < 10 ^ n) by (apply Z.pow_pos_nonneg; lia).
  destruct s as [|p|p]; [lia| |lia]. rewrite pretty_Zpos.
  destruct (pretty_N_go_nonempty (Npos p) "" ltac:(lia)) as (c & r & d & Hc & _).
  split; [by rewrite Hc|]. split; [by apply pretty_N_go_digits|]. split.
  - destruct (pretty_N_go_value (Npos p)) as (k & _ & Hv).
    rewrite (Hv 0 ""). simpl. reflexivity.
  - rewrite (pretty_N_go_length (Z.to_nat n)).
    + simpl. lia.
    + rewrite Nat2N.inj_succ, !Z_nat_N, N.pow_succ_r'.
      assert (Z.of_N (10 ^ Z.to_N n) = 10 ^ n) as HN.
      { rewrite N2Z.inj_pow, Z2N.id by lia. reflexivity. }
      rewrite Z.pow_add_r, Z.pow_1_r in Hhi by lia. lia.
Qed.

(** [String] of a positive integer below [2^53] is a text of decimal
    digits that denote it. *)
Lemma positive_to_string_int (z : positive) :
  Zpos z < 2 ^ 53 ->
  let t := Double.positive_to_string z 1 in
  t <> "" /\ all_digits t = true /\ digits_value 0 t = Some (Zpos z).
Proof.
  intros Hz. cbv zeta. unfold Double.positive_to_string.
  destruct (floor_log10_int z Hz) as (e10 & -> & He & Hrange).
  destruct (shortest_int z e10 Hz ltac:(lia) Hrange 17 1 ltac:(lia) ltac:(lia))
    as (s0 & j & -> & Hj & Hs0 & Hpos).
  destruct (strip_zeros_spec 17 s0 Hpos) as (i & Hi & Hstrip & Hspos).
  set (s := Double.strip_zeros 17 s0) in *.
  set (m := i + j).
  assert (s * 10 ^ m = Zpos z) as Hsz.
  { subst m. rewrite Z.pow_add_r by lia. lia. }
  assert (0 < 10 ^ m) as Hm0 by (apply Z.pow_pos_nonneg; lia).
  assert (m <= e10) as Hme.
  { destruct (Z.le_gt_cases m e10) as [|Hgt]; [done|].
    assert (10 ^ (e10 + 1) <= 10 ^ m) by (apply Z.pow_le_mono_r; lia). nia. }
  assert (10 ^ (e10 - m) <= s < 10 ^ (e10 - m + 1)) as Hs.
  { assert (10 ^ e10 = 10 ^ (e10 - m) * 10 ^ m) as E1
      by (rewrite <- Z.pow_add_r by lia; f_equal; lia).
    assert (10 ^ (e10 + 1) = 10 ^ (e10 - m + 1) * 10 ^ m) as E2
      by (rewrite <- Z.pow_add_r by lia; f_equal; lia).
    split; nia. }
  destruct (pretty_positive_digits s (e10 - m) ltac:(lia) Hs) as (Hne & Hd & Hv & Hlen).
  cbv zeta. rewrite Hlen.
  destruct (Z.leb_spec (e10 - m + 1) (e10 + 1)); [|lia].
  destruct (Z.leb_spec (e10 + 1) 21); [|lia]. cbn [andb].
  split; [|split].
  - destruct (pretty s); [done | discriminate].
  - apply all_digits_app; [exact Hd | apply all_digits_zeros].
  - rewrite (digits_value_app _ _ 0 s Hv), digits_value_zeros. f_equal.
    rewrite Z2Nat.id by lia. rewrite <- Hsz. f_equal. f_equal. lia.
Qed.

(** [Number(String(z))] is [z] for an integer [z] below [2^53] in absolute
    value, and the text is not empty. *)
Lemma Double_StringToNumber_NumberToString_int (z : Z) :
  Z.abs z < 2 ^ 53 ->
  Double.StringToNumber (Double.NumberToString (Double.Finite (inject_Z z)))
    = Double.Finite (inject_Z z) /\
  string_truthy (Double.NumberToString (Double.Finite (inject_Z z))) = true.
Proof.
  intros Hz. destruct z as [|p|p]; [split; reflexivity| |].
  - cbn [Double.NumberToString inject_Z Qnum Qden].
    destruct (positive_to_string_int p ltac:(lia)) as (Hne & Hd & Hv).
    split.
    + rewrite (proj1 (Double_StringToNumber_digits _ _ Hne Hd Hv)).
      apply round_int. lia.
    + by destruct (Double.positive_to_string p 1).
  - cbn [Double.NumberToString inject_Z Qnum Qden].
    destruct (positive_to_string_int p ltac:(lia)) as (Hne & Hd & Hv).
    split; [|reflexivity].
    change ("-" ++ Double.positive_to_string p 1)
      with (String "-" (Double.positive_to_string p 1)).
    rewrite (proj2 (Double_StringToNumber_digits _ _ Hne Hd Hv)).
    rewrite round_int by lia. reflexivity.
Qed.

(** ** Saving a row untouched *)

Lemma DApp_get_lt (arr : list DApp.slot) (i : nat) (e : DApp.Entry) :
  DApp.get arr i = Some e -> (i < length arr)%nat /\ arr !! i = Some (DApp.Elem e).
Proof.
  unfold DApp.get. destruct (arr !! i) as [[| |e']|] eqn:H; try discriminate.
  intros [= ->]. split; [by eapply lookup_lt_Some | reflexivity].
Qed.

Lemma DApp_array_set_in_range (arr : list DApp.slot) (i : nat) (x : DApp.slot) :
  (i < length arr)%nat -> DApp.array_set i x arr = <[i := x]> arr.
Proof. intros H. unfold DApp.array_set. by destruct (Nat.ltb_spec i (length arr)); [|lia]. Qed.

(** X10.  Opening a row and saving it untouched is harmless when the
    amount of the entry and the progress are integers, together below
    [2^53] in absolute value: [startEdit] then [saveEdit] leaves the
    progress where it was, keeps the amount and the date of the entry and
    of every other one, closes the session and alerts nothing.  The label
    comes back trimmed, an empty label as none; an entry without label, or
    with a label that has no white space around it, is unchanged and so is
    the ledger. *)
Theorem startEdit_saveEdit_roundtrip_on_integers (s : DApp.State) (i : nat)
    (e : DApp.Entry) (a p : Z) :
  DApp.get (DApp.entries s) i = Some e ->
  DApp.amount e = Double.Finite (inject_Z a) ->
  DApp.progress s = Double.Finite (inject_Z p) ->
  Z.abs p + Z.abs a < 2 ^ 53 ->
  let s' := DApp.saveEdit (DApp.startEdit i s) in
  let label := default "" (DApp.partName e) in
  DApp.progress s' = Double.Finite (inject_Z p) /\
  DApp.entries s' =
    <[i := DApp.Elem {| DApp.amount := Double.Finite (inject_Z a);
                        DApp.partName := if string_truthy label
                                         then Some (Double.trim label) else None;
                        DApp.date := DApp.date e |}]> (DApp.entries s) /\
  DApp.editIdx s' = None /\ DApp.alerts s' = DApp.alerts s /\
  ((DApp.partName e = None \/
    exists l, DApp.partName e = Some l /\ l <> "" /\ Double.trim l = l) ->
   DApp.entries s' = DApp.entries s).
Proof.
  intros Hg Ha Hpr Hb s' label.
  destruct (DApp_get_lt _ _ _ Hg) as [Hlt Hl].
  destruct (Double_StringToNumber_NumberToString_int a ltac:(lia)) as [Hrt _].
  assert (DApp.startEdit i s =
          DApp.setEditName label
            (DApp.setEditAmount (Double.NumberToString (Double.Finite (inject_Z a)))
               (DApp.setEditIdx (Some i) s))) as Hstart.
  { unfold DApp.startEdit. rewrite Hg, Ha. reflexivity. }
  assert (DApp.progress s' = Double.Finite (inject_Z p) /\
          DApp.entries s' =
            <[i := DApp.Elem {| DApp.amount := Double.Finite (inject_Z a);
                                DApp.partName := if string_truthy label
                                                 then Some (Double.trim label) else None;
                                DApp.date := DApp.date e |}]> (DApp.entries s) /\
          DApp.editIdx s' = None /\ DApp.alerts s' = DApp.alerts s)
    as (Hp & He & Hi & Hal).
  { subst s'. rewrite Hstart. unfold DApp.saveEdit.
    cbn [DApp.editIdx DApp.editAmount DApp.setEditName DApp.setEditAmount DApp.setEditIdx].
    rewrite Hrt. cbn [Double.isNaN].
    cbn [DApp.cancelEdit DApp.setEditName DApp.setEditAmount DApp.setEditIdx
         DApp.setProgress DApp.setEntries DApp.progress DApp.entries DApp.editIdx
         DApp.alerts DApp.editName DApp.targetSum DApp.knobValue DApp.pointerActive
         DApp.lastAngle DApp.showSettings DApp.showClearAlert].
    unfold DApp.old_amount. rewrite Hg, Ha, Hpr.
    rewrite DApp_array_set_in_range by done.
    rewrite sub_int, add_int by lia.
    repeat apply conj; try reflexivity. do 2 f_equal. lia. }
  repeat apply conj; try done.
  intros Hlabel. rewrite He. apply list_insert_id. rewrite Hl. do 2 f_equal.
  destruct e as [am pn dt]. simpl in *. subst am. subst label. f_equal.
  destruct Hlabel as [-> | (l & -> & Hne & Htrim)]; [reflexivity|].
  simpl. destruct l; [done|]. cbn [string_truthy]. by rewrite Htrim.
Qed.

Lemma startEdit_saveEdit_roundtrip_on_integers_witness :
  let s := DApp.addEntry (DApp.Vstring "-300") (Some "fee") "2024-05-01T10:00:00.000Z"
             (DApp.commitKnob "d0" DApp.default_state) in
  DApp.progress (DApp.saveEdit (DApp.startEdit 0 s)) = Double.Finite (inject_Z 25700) /\
  DApp.entries (DApp.saveEdit (DApp.startEdit 0 s)) = DApp.entries s.
Proof.
  intros s.
  destruct (startEdit_saveEdit_roundtrip_on_integers s 0
              (DApp.mkEntry (Double.Finite (inject_Z (-300))) (Some "fee")
                 (Some "2024-05-01T10:00:00.000Z"))
              (-300) 25700 eq_refl eq_refl eq_refl eq_refl) as (Hp & _ & _ & _ & He).
  split; [exact Hp|]. apply He. right. exists "fee".
  repeat apply conj; [reflexivity | discriminate | reflexivity].
Defined.

(** With fractions the progress can move when a row is opened and saved as
    it is: the progress 0.1 is loaded, 0.3 and 0.5 are added, and the row
    of 0.3 is opened and saved; the progress goes from 0.9 to
    0.9000000000000001. *)
Example untouched_save_fractions :
  let s := DApp.run [DApp.EvAddEntry (DApp.Vstring "0.3") None "d1";
                     DApp.EvAddEntry (DApp.Vstring "0.5") None "d2"]
             (DApp.App_init (fun _ => None) {[STORAGE_KEYS.PROGRESS := "0.1"]}) in
  Double.NumberToString (DApp.progress s) = "0.9" /\
  DApp.editAmount (DApp.startEdit 1 s) = "0.3" /\
  DApp.entries (DApp.saveEdit (DApp.startEdit 1 s)) = DApp.entries s /\
  Double.NumberToString (DApp.progress (DApp.saveEdit (DApp.startEdit 1 s)))
    = "0.9000000000000001".
Proof. repeat apply conj; vm_compute; reflexivity. Qed.

(** ** Writing the state and reading it back *)

Lemma DApp_persist_lookup (JSON_stringify : list DApp.slot -> string) (s : DApp.State)
    (ls : gmap string string) :
  DApp.persist JSON_stringify s ls !! STORAGE_KEYS.TARGET
    = Some (Double.NumberToString (DApp.targetSum s)) /\
  DApp.persist JSON_stringify s ls !! STORAGE_KEYS.PROGRESS
    = Some (Double.NumberToString (DApp.progress s)).
Proof.
  unfold DApp.persist. split.
  - rewrite lookup_insert_ne by done. rewrite lookup_insert_ne by done.
    apply lookup_insert_eq.
  - rewrite lookup_insert_ne by done. apply lookup_insert_eq.
Qed.

(** X18.  What the effects write under the target and the progress keys,
    the initialisers of [App.jsx] read back, whatever else the store holds:
    an integer below [2^53] in absolute value comes back as it was, [0]
    included (its text is not empty), and so do [NaN] and the infinities. *)
Theorem persist_then_load_numbers (JSON_parse : string -> option (list DApp.slot))
    (JSON_stringify : list DApp.slot -> string) (s : DApp.State)
    (ls : gmap string string) :
  let s' := DApp.App_init JSON_parse (DApp.persist JSON_stringify s ls) in
  let kept (a : Double.double) :=
    (exists z, a = Double.Finite (inject_Z z) /\ Z.abs z < 2 ^ 53) \/
    a = Double.NotANumber \/ a = Double.PosInf \/ a = Double.NegInf in
  (kept (DApp.targetSum s) -> DApp.targetSum s' = DApp.targetSum s) /\
  (kept (DApp.progress s) -> DApp.progress s' = DApp.progress s).
Proof.
  destruct (DApp_persist_lookup JSON_stringify s ls) as (Ht & Hp).
  cbv zeta. cbn [DApp.App_init DApp.targetSum DApp.progress].
  unfold DApp.targetSum_init, DApp.progress_init. rewrite Ht, Hp.
  split.
  - intros [(z & -> & Hz) | [-> | [-> | ->]]]; try reflexivity.
    destruct (Double_StringToNumber_NumberToString_int z Hz) as [-> ->]. reflexivity.
  - intros [(z & -> & Hz) | [-> | [-> | ->]]]; try reflexivity.
    destruct (Double_StringToNumber_NumberToString_int z Hz) as [-> ->]. reflexivity.
Qed.

Lemma persist_then_load_numbers_witness :
  let s := DApp.clearAllEntries (DApp.changeTarget "abc" DApp.default_state) in
  DApp.progress (DApp.App_init (fun _ => None) (DApp.persist (fun _ => "[]") s ∅))
    = Double.Finite (inject_Z 0) /\
  DApp.targetSum (DApp.App_init (fun _ => None) (DApp.persist (fun _ => "[]") s ∅))
    = Double.NotANumber.
Proof.
  intros s.
  destruct (persist_then_load_numbers (fun _ => None) (fun _ => "[]") s ∅) as (Ht & Hp).
  split.
  - rewrite Hp; [reflexivity|]. left. exists 0. split; [reflexivity | reflexivity].
  - rewrite Ht; [reflexivity|]. right. left. reflexivity.
Defined.
